(** * Rent reconciliation: the matching engine of plaid_income_tracking

    A shallow embedding of the JSON-file store of [src/lib/data.ts] and of
    the API routes that read and write tenant/transaction links
    ([api/data/match], [api/data/tenant-transactions], [api/data/tenants],
    [api/data/accounts], [api/data/csv-uploads]), followed by the properties
    of the matching and reconciliation engine.

    Conventions of the embedding:
    - every JSON file of the data directory is a field of [Store]; a missing
      file reads as the empty array, as [readJsonFile] does;
    - a JS [number] is a binary64 float ([PrimFloat.float]);
    - a JS string is a [string], read as the sequence of its UTF-8 bytes:
      concatenation, [===], [includes] and a scan for an ASCII character
      give the same result on both for well-formed text;
    - [String.prototype.toUpperCase] and [String.prototype.trim] follow the
      Unicode tables of the engine; the rule check and the CSV line reader
      take them as arguments ([isMatchWith], [stillMatchesWith],
      [parseCSVLine]), and [Js.toUpperCase], [Js.toLowerCase] and [Js.trim]
      are what they do on ASCII text (letters [a]-[z], white space 9-13 and
      32), with which the routes and the scenarios run;
    - a JS [Set] of strings is a [gset string], a [Map] a [gmap];
    - array callbacks are boolean functions, [===] on strings is
      [String.eqb]. *)

From Stdlib Require Import Floats.
From Stdlib Require Import List Bool Arith ZArith Lia Ascii String.
From stdpp Require Import base decidable option list strings gmap pretty.
Import ListNotations.

Set Warnings "-inexact-float".
Local Open Scope string_scope.
Local Open Scope list_scope.

(** ** JavaScript strings *)

Module Js.

(** [c.toUpperCase()] on one ASCII character; other bytes are kept. *)
Definition upperChar (c : ascii) : ascii :=
  let n := nat_of_ascii c in
  if (97 <=? n)%nat && (n <=? 122)%nat then ascii_of_nat (n - 32) else c.

(** [s.toUpperCase()] on ASCII text. *)
Fixpoint toUpperCase (s : string) : string :=
  match s with
  | EmptyString => EmptyString
  | String c rest => String (upperChar c) (toUpperCase rest)
  end.

(** The ASCII white space removed by [String.prototype.trim]: TAB, LF, VT,
    FF, CR and SPACE. *)
Definition isWhiteSpace (c : ascii) : bool :=
  let n := nat_of_ascii c in
  ((9 <=? n)%nat && (n <=? 13)%nat) || (n =? 32)%nat.

Fixpoint trimStart (s : string) : string :=
  match s with
  | EmptyString => EmptyString
  | String c rest => if isWhiteSpace c then trimStart rest else s
  end.

Fixpoint trimEnd (s : string) : string :=
  match s with
  | EmptyString => EmptyString
  | String c rest =>
      let rest' := trimEnd rest in
      if isWhiteSpace c && String.eqb rest' EmptyString
      then EmptyString
      else String c rest'
  end.

(** [s.trim()] on ASCII text. *)
Definition trim (s : string) : string := trimEnd (trimStart s).

(** [s.startsWith(sub)] *)
Fixpoint startsWith (s sub : string) : bool :=
  match sub, s with
  | EmptyString, _ => true
  | String _ _, EmptyString => false
  | String c sub', String d s' => Ascii.eqb c d && startsWith s' sub'
  end.

(** [s.includes(sub)]: [sub] occurs in [s] at some position. *)
Fixpoint includes (s sub : string) : bool :=
  startsWith s sub ||
  match s with
  | EmptyString => false
  | String _ s' => includes s' sub
  end.

(** [value || ''] for an optional string field. *)
Definition orEmpty (o : option string) : string :=
  match o with
  | Some s => s
  | None => EmptyString
  end.

(** [!value] for a string: only the empty string is falsy. *)
Definition falsy (s : string) : bool := String.eqb s EmptyString.

(** [c.toLowerCase()] on one ASCII code unit. *)
Definition lowerChar (c : ascii) : ascii :=
  let n := nat_of_ascii c in
  if (65 <=? n)%nat && (n <=? 90)%nat then ascii_of_nat (n + 32) else c.

(** [s.toLowerCase()] *)
Fixpoint toLowerCase (s : string) : string :=
  match s with
  | EmptyString => EmptyString
  | String c rest => String (lowerChar c) (toLowerCase rest)
  end.

(** The double quote character. *)
Definition quote : ascii := ascii_of_nat 34.

(** Removal of a double quote at the very end of a string. *)
Fixpoint dropLastQuote (s : string) : string :=
  match s with
  | EmptyString => EmptyString
  | String c EmptyString => if Ascii.eqb c quote then EmptyString else s
  | String c rest => String c (dropLastQuote rest)
  end.

(** [s.replace(/^"|"$/g, '')]: one double quote is removed at the start
    and one at the end, where present. *)
Definition stripQuotes (s : string) : string :=
  match s with
  | EmptyString => EmptyString
  | String c rest => if Ascii.eqb c quote then dropLastQuote rest else dropLastQuote s
  end.

(** [value] is truthy, for an optional string: present and not empty. *)
Definition truthy (o : option string) : bool :=
  match o with
  | Some s => negb (falsy s)
  | None => false
  end.

End Js.

(** ** The store: [src/lib/data.ts] *)

Module Data.

Inductive MatchMode := searchTermsMode | exactAmountsMode.

Record Account := {
  account_id : string;
  account_institution : string;
  account_itemId : string
}.

(** [matchMode] and [exactAmounts] are absent from tenants saved before
    the exact-amount mode existed; the code reads them through
    [tenant.matchMode || 'searchTerms'] and [tenant.exactAmounts || []]. *)
Record Tenant := {
  tenant_id : string;
  tenant_name : string;
  tenant_property : string;
  tenant_expectedRent : float;
  tenant_tolerance : float;
  tenant_searchTerms : list string;
  tenant_accountId : string;
  tenant_matchMode : option MatchMode;
  tenant_exactAmounts : option (list float)
}.

Record TenantTransaction := {
  tt_id : string;
  tt_tenantId : string;
  tt_transactionId : string;
  tt_manualOverride : bool
}.

Record RejectedMatch := {
  rm_tenantId : string;
  rm_transactionId : string
}.

Record Transaction := {
  tx_transactionId : string;
  tx_accountId : string;
  tx_itemId : string;
  tx_amount : float;
  tx_date : string;
  tx_name : string;
  tx_merchantName : option string;
  tx_pending : bool
}.

Record CsvUpload := {
  upload_id : string;
  upload_accountId : string;
  upload_filename : string;
  upload_transactionIds : list string
}.

(** One field per JSON file of the data directory. *)
Record Store := {
  accounts_json : list Account;
  tenants_json : list Tenant;
  transactions_json : list Transaction;
  tenant_transactions_json : list TenantTransaction;
  rejected_matches_json : list RejectedMatch;
  csv_uploads_json : list CsvUpload
}.

Definition emptyStore : Store :=
  {| accounts_json := []; tenants_json := []; transactions_json := [];
     tenant_transactions_json := []; rejected_matches_json := [];
     csv_uploads_json := [] |}.

Definition write_accounts (v : list Account) (st : Store) : Store :=
  {| accounts_json := v; tenants_json := tenants_json st;
     transactions_json := transactions_json st;
     tenant_transactions_json := tenant_transactions_json st;
     rejected_matches_json := rejected_matches_json st;
     csv_uploads_json := csv_uploads_json st |}.

Definition write_tenants (v : list Tenant) (st : Store) : Store :=
  {| accounts_json := accounts_json st; tenants_json := v;
     transactions_json := transactions_json st;
     tenant_transactions_json := tenant_transactions_json st;
     rejected_matches_json := rejected_matches_json st;
     csv_uploads_json := csv_uploads_json st |}.

Definition write_transactions (v : list Transaction) (st : Store) : Store :=
  {| accounts_json := accounts_json st; tenants_json := tenants_json st;
     transactions_json := v;
     tenant_transactions_json := tenant_transactions_json st;
     rejected_matches_json := rejected_matches_json st;
     csv_uploads_json := csv_uploads_json st |}.

Definition write_tenant_transactions (v : list TenantTransaction) (st : Store) : Store :=
  {| accounts_json := accounts_json st; tenants_json := tenants_json st;
     transactions_json := transactions_json st;
     tenant_transactions_json := v;
     rejected_matches_json := rejected_matches_json st;
     csv_uploads_json := csv_uploads_json st |}.

Definition write_rejected_matches (v : list RejectedMatch) (st : Store) : Store :=
  {| accounts_json := accounts_json st; tenants_json := tenants_json st;
     transactions_json := transactions_json st;
     tenant_transactions_json := tenant_transactions_json st;
     rejected_matches_json := v;
     csv_uploads_json := csv_uploads_json st |}.

Definition write_csv_uploads (v : list CsvUpload) (st : Store) : Store :=
  {| accounts_json := accounts_json st; tenants_json := tenants_json st;
     transactions_json := transactions_json st;
     tenant_transactions_json := tenant_transactions_json st;
     rejected_matches_json := rejected_matches_json st;
     csv_uploads_json := v |}.

(** [arr[i] = x] when [findIndex] found [i], [arr.push(x)] otherwise:
    the first element satisfying [p] is replaced. *)
Fixpoint replaceOrPush {A} (p : A -> bool) (x : A) (arr : list A) : list A :=
  match arr with
  | [] => [x]
  | y :: rest => if p y then x :: rest else y :: replaceOrPush p x rest
  end.

(** *** Accounts *)

Definition getAccounts (st : Store) : list Account := accounts_json st.

Definition saveAccount (account : Account) (st : Store) : Store :=
  write_accounts
    (replaceOrPush (fun a => String.eqb (account_id a) (account_id account))
                   account (getAccounts st)) st.

Definition deleteAccount (id : string) (st : Store) : Store :=
  write_accounts
    (List.filter (fun a => negb (String.eqb (account_id a) id)) (getAccounts st)) st.

(** *** Tenants *)

Definition getTenants (st : Store) : list Tenant := tenants_json st.

Definition saveTenant (tenant : Tenant) (st : Store) : Store :=
  write_tenants
    (replaceOrPush (fun t => String.eqb (tenant_id t) (tenant_id tenant))
                   tenant (getTenants st)) st.

Definition deleteTenant (id : string) (st : Store) : Store :=
  write_tenants
    (List.filter (fun t => negb (String.eqb (tenant_id t) id)) (getTenants st)) st.

(** *** Transactions *)

Definition getTransactions (st : Store) : list Transaction := transactions_json st.

Definition getDeposits (st : Store) : list Transaction :=
  List.filter (fun t => PrimFloat.ltb (tx_amount t) 0%float) (getTransactions st).

Definition saveTransactions (transactions : list Transaction) (st : Store) : Store :=
  let existing := getTransactions st in
  let existingIds : gset string := list_to_set (List.map tx_transactionId existing) in
  let newTransactions :=
    List.filter (fun t => negb (bool_decide (tx_transactionId t ∈ existingIds)))
                transactions in
  write_transactions (existing ++ newTransactions) st.

(** [new Map(pairs)]: a later pair overrides an earlier one with the same key. *)
Definition newMap {V} (pairs : list (string * V)) : gmap string V :=
  fold_left (fun m kv => <[fst kv := snd kv]> m) pairs ∅.

Definition updateTransactions (transactions : list Transaction) (st : Store) : Store :=
  let existing := getTransactions st in
  let updateMap := newMap (List.map (fun t => (tx_transactionId t, t)) transactions) in
  write_transactions
    (List.map (fun t => default t (updateMap !! tx_transactionId t)) existing) st.

Definition removeTransactions (transactionIds : list string) (st : Store) : Store :=
  let idsToRemove : gset string := list_to_set transactionIds in
  write_transactions
    (List.filter (fun t => negb (bool_decide (tx_transactionId t ∈ idsToRemove)))
                 (getTransactions st)) st.

(** *** Tenant transactions (links between tenants and transactions) *)

Definition getTenantTransactions (st : Store) : list TenantTransaction :=
  tenant_transactions_json st.

Definition getTenantTransactionsForTenant (tenantId : string) (st : Store)
  : list TenantTransaction :=
  List.filter (fun tt => String.eqb (tt_tenantId tt) tenantId) (getTenantTransactions st).

Definition getTenantTransactionByTransactionId (transactionId : string) (st : Store)
  : option TenantTransaction :=
  List.find (fun tt => String.eqb (tt_transactionId tt) transactionId)
            (getTenantTransactions st).

Definition addTenantTransaction (tenantId transactionId : string)
           (manualOverride : bool) (st : Store) : Store :=
  let existing := getTenantTransactions st in
  let alreadyAssigned :=
    List.find (fun tt => String.eqb (tt_transactionId tt) transactionId) existing in
  match alreadyAssigned with
  | Some _ => st
  | None =>
      write_tenant_transactions
        (existing ++ [ {| tt_id := tenantId ++ "-" ++ transactionId;
                          tt_tenantId := tenantId;
                          tt_transactionId := transactionId;
                          tt_manualOverride := manualOverride |} ]) st
  end.

Definition removeTenantTransaction (transactionId : string) (st : Store) : Store :=
  write_tenant_transactions
    (List.filter (fun tt => negb (String.eqb (tt_transactionId tt) transactionId))
                 (getTenantTransactions st)) st.

Definition removeTenantTransactionsForTenant (tenantId : string) (st : Store) : Store :=
  write_tenant_transactions
    (List.filter (fun tt => negb (String.eqb (tt_tenantId tt) tenantId))
                 (getTenantTransactions st)) st.

Section StringLibrary.

(** The two functions of the string library that the rule calls. *)
Variables toUpperCase trim : string -> string.

(** The rule check inlined in [reEvaluateTenantMatches]: the value of
    [stillMatches] once the transaction has been found. *)
Definition stillMatchesWith (tenant : Tenant) (transaction : Transaction) : bool :=
  let matchMode := default searchTermsMode (tenant_matchMode tenant) in
  let depositAmount := PrimFloat.abs (tx_amount transaction) in
  match matchMode with
  | exactAmountsMode =>
      let exactAmounts := default [] (tenant_exactAmounts tenant) in
      existsb (fun amount =>
                 PrimFloat.ltb (PrimFloat.abs (depositAmount - amount)) 0.01)%float
              exactAmounts
  | searchTermsMode =>
      let description :=
        toUpperCase (tx_name transaction ++ " " ++
                     Js.orEmpty (tx_merchantName transaction)) in
      let minAmount := (tenant_expectedRent tenant - tenant_tolerance tenant)%float in
      let maxAmount := (tenant_expectedRent tenant + tenant_tolerance tenant)%float in
      if PrimFloat.leb minAmount depositAmount && PrimFloat.leb depositAmount maxAmount
      then existsb (fun term =>
                      negb (String.eqb (trim term) "") &&
                      Js.includes description (toUpperCase term))
                   (tenant_searchTerms tenant)
      else false
  end.

End StringLibrary.

(** The rule check of the re-evaluation on ASCII text. *)
Definition stillMatches : Tenant -> Transaction -> bool :=
  stillMatchesWith Js.toUpperCase Js.trim.

(** The [for (const tt of autoMatched)] loop, threading [transactionsToRemove];
    [link] is the loop variable [tt]. *)
Fixpoint reEvaluateLoop (tenant : Tenant) (allTransactions : list Transaction)
         (autoMatched : list TenantTransaction) (transactionsToRemove : list string)
  : list string :=
  match autoMatched with
  | [] => transactionsToRemove
  | link :: rest =>
      match List.find (fun t => String.eqb (tx_transactionId t) (tt_transactionId link))
                      allTransactions with
      | None =>
          reEvaluateLoop tenant allTransactions rest
                         (transactionsToRemove ++ [tt_transactionId link])
      | Some transaction =>
          if negb (stillMatches tenant transaction)
          then reEvaluateLoop tenant allTransactions rest
                              (transactionsToRemove ++ [tt_transactionId link])
          else reEvaluateLoop tenant allTransactions rest transactionsToRemove
      end
  end.

(** [arr.includes(x)] on an array of strings. *)
Definition arrayIncludes (arr : list string) (x : string) : bool :=
  existsb (fun y => String.eqb y x) arr.

(** Returns the number of removed transaction ids and the new store. *)
Definition reEvaluateTenantMatches (tenant : Tenant) (st : Store) : nat * Store :=
  let tenantTransactions := getTenantTransactions st in
  let allTransactions := getTransactions st in
  let autoMatched :=
    List.filter (fun tt => String.eqb (tt_tenantId tt) (tenant_id tenant) &&
                           negb (tt_manualOverride tt)) tenantTransactions in
  let transactionsToRemove := reEvaluateLoop tenant allTransactions autoMatched [] in
  let st' :=
    if (0 <? length transactionsToRemove)%nat
    then write_tenant_transactions
           (List.filter (fun tt => negb (arrayIncludes transactionsToRemove
                                                       (tt_transactionId tt)))
                        tenantTransactions) st
    else st in
  (length transactionsToRemove, st').

(** *** Rejected matches *)

Definition getRejectedMatches (st : Store) : list RejectedMatch :=
  rejected_matches_json st.

Definition samePair (tenantId transactionId : string) (rm : RejectedMatch) : bool :=
  String.eqb (rm_tenantId rm) tenantId && String.eqb (rm_transactionId rm) transactionId.

Definition addRejectedMatch (tenantId transactionId : string) (st : Store) : Store :=
  let existing := getRejectedMatches st in
  match List.find (samePair tenantId transactionId) existing with
  | Some _ => st
  | None =>
      write_rejected_matches
        (existing ++ [ {| rm_tenantId := tenantId; rm_transactionId := transactionId |} ])
        st
  end.

Definition isMatchRejected (tenantId transactionId : string) (st : Store) : bool :=
  existsb (samePair tenantId transactionId) (getRejectedMatches st).

Definition removeRejectedMatch (tenantId transactionId : string) (st : Store) : Store :=
  write_rejected_matches
    (List.filter (fun rm => negb (samePair tenantId transactionId rm))
                 (getRejectedMatches st)) st.

Definition removeRejectedMatchesForTenant (tenantId : string) (st : Store) : Store :=
  write_rejected_matches
    (List.filter (fun rm => negb (String.eqb (rm_tenantId rm) tenantId))
                 (getRejectedMatches st)) st.

(** *** CSV uploads *)

Definition getCsvUploads (st : Store) : list CsvUpload := csv_uploads_json st.

Definition saveCsvUpload (upload : CsvUpload) (st : Store) : Store :=
  write_csv_uploads
    (replaceOrPush (fun u => String.eqb (upload_id u) (upload_id upload))
                   upload (getCsvUploads st)) st.

Definition deleteCsvUpload (uploadId : string) (st : Store) : option CsvUpload * Store :=
  let uploads := getCsvUploads st in
  match List.find (fun u => String.eqb (upload_id u) uploadId) uploads with
  | None => (None, st)
  | Some upload =>
      (Some upload,
       write_csv_uploads
         (List.filter (fun u => negb (String.eqb (upload_id u) uploadId)) uploads) st)
  end.

Definition deleteCsvUploadsForAccount (accountId : string) (st : Store) : Store :=
  write_csv_uploads
    (List.filter (fun u => negb (String.eqb (upload_accountId u) accountId))
                 (getCsvUploads st)) st.

End Data.

(** ** The API routes *)

(** A route answers with a JSON body or with an error status. *)
Inductive Response (A : Type) :=
| Json (body : A)
| ErrorStatus (status : nat).
Arguments Json {A} body.
Arguments ErrorStatus {A} status.

(** *** [api/data/match] *)

Module MatchRoute.
Import Data.

Section StringLibrary.

(** The two functions of the string library that the rule calls. *)
Variables toUpperCase trim : string -> string.

(** The rule check of the tenant loop: the value of [isMatch] for one
    tenant and one deposit whose upper-cased description is [description]. *)
Definition isMatchWith (tenant : Tenant) (deposit : Transaction) (description : string)
  : bool :=
  let depositAmount := PrimFloat.abs (tx_amount deposit) in
  let matchMode := default searchTermsMode (tenant_matchMode tenant) in
  match matchMode with
  | exactAmountsMode =>
      let exactAmounts := default [] (tenant_exactAmounts tenant) in
      existsb (fun amount =>
                 PrimFloat.ltb (PrimFloat.abs (depositAmount - amount)) 0.01)%float
              exactAmounts
  | searchTermsMode =>
      let minAmount := (tenant_expectedRent tenant - tenant_tolerance tenant)%float in
      let maxAmount := (tenant_expectedRent tenant + tenant_tolerance tenant)%float in
      if PrimFloat.leb minAmount depositAmount && PrimFloat.leb depositAmount maxAmount
      then existsb (fun term =>
                      negb (String.eqb (trim term) "") &&
                      Js.includes description (toUpperCase term))
                   (tenant_searchTerms tenant)
      else false
  end.

End StringLibrary.

(** The rule check of the tenant loop on ASCII text. *)
Definition isMatch : Tenant -> Transaction -> string -> bool :=
  isMatchWith Js.toUpperCase Js.trim.

(** The variables the two loops update: the store (written through
    [addTenantTransaction]), the [assignedIds] set and [matchedCount]. *)
Record Loop := {
  store : Store;
  assignedIds : gset string;
  matchedCount : nat
}.

(** [for (const tenant of tenants)], left at the first match by [break]. *)
Fixpoint tenantLoop (deposit : Transaction) (description : string)
         (tenants : list Tenant) (s : Loop) : Loop :=
  match tenants with
  | [] => s
  | tenant :: rest =>
      if isMatchRejected (tenant_id tenant) (tx_transactionId deposit) (store s)
      then tenantLoop deposit description rest s
      else if isMatch tenant deposit description
      then {| store := addTenantTransaction (tenant_id tenant)
                         (tx_transactionId deposit) false (store s);
              assignedIds := {[ tx_transactionId deposit ]} ∪ assignedIds s;
              matchedCount := S (matchedCount s) |}
      else tenantLoop deposit description rest s
  end.

(** [for (const deposit of deposits)] *)
Fixpoint depositLoop (tenants : list Tenant) (deposits : list Transaction)
         (s : Loop) : Loop :=
  match deposits with
  | [] => s
  | deposit :: rest =>
      if bool_decide (tx_transactionId deposit ∈ assignedIds s)
      then depositLoop tenants rest s
      else
        let description :=
          Js.toUpperCase (tx_name deposit ++ " " ++
                          Js.orEmpty (tx_merchantName deposit)) in
        depositLoop tenants rest (tenantLoop deposit description tenants s)
  end.

(** [POST]: the response carries [matched]. *)
Definition POST (st : Store) : Response nat * Store :=
  let tenants := getTenants st in
  let allTransactions := getTransactions st in
  let existingAssignments := getTenantTransactions st in
  let deposits :=
    List.filter (fun t => PrimFloat.ltb (tx_amount t) 0%float) allTransactions in
  let assignedIds : gset string :=
    list_to_set (List.map tt_transactionId existingAssignments) in
  let s := depositLoop tenants deposits
             {| store := st; assignedIds := assignedIds; matchedCount := 0 |} in
  (Json (matchedCount s), store s).

End MatchRoute.

(** *** [api/data/tenant-transactions] *)

Module TenantTransactionsRoute.
Import Data.

Definition GET (st : Store) : Response (list TenantTransaction) * Store :=
  (Json (getTenantTransactions st), st).

(** Manual assignment. *)
Definition POST (tenantId transactionId : string) (st : Store)
  : Response unit * Store :=
  if Js.falsy tenantId || Js.falsy transactionId
  then (ErrorStatus 400, st)
  else
    let st := removeRejectedMatch tenantId transactionId st in
    let st := addTenantTransaction tenantId transactionId true st in
    (Json tt, st).

(** Removal of a transaction from its tenant. *)
Definition DELETE (transactionId : string) (st : Store) : Response unit * Store :=
  if Js.falsy transactionId
  then (ErrorStatus 400, st)
  else
    let assignment := getTenantTransactionByTransactionId transactionId st in
    let st :=
      match assignment with
      | Some assignment => addRejectedMatch (tt_tenantId assignment) transactionId st
      | None => st
      end in
    let st := removeTenantTransaction transactionId st in
    (Json tt, st).

End TenantTransactionsRoute.

(** *** [api/data/tenants] *)

Module TenantsRoute.
Import Data.

Definition withId (id : string) (tenant : Tenant) : Tenant :=
  {| tenant_id := id; tenant_name := tenant_name tenant;
     tenant_property := tenant_property tenant;
     tenant_expectedRent := tenant_expectedRent tenant;
     tenant_tolerance := tenant_tolerance tenant;
     tenant_searchTerms := tenant_searchTerms tenant;
     tenant_accountId := tenant_accountId tenant;
     tenant_matchMode := tenant_matchMode tenant;
     tenant_exactAmounts := tenant_exactAmounts tenant |}.

Record SaveBody := {
  saved : Tenant;
  removedCount : nat
}.

(** [POST]: [now] is the value of [Date.now()]. *)
Definition POST (tenant : Tenant) (now : N) (st : Store) : Response SaveBody * Store :=
  let isEdit :=
    negb (Js.falsy (tenant_id tenant)) &&
    existsb (fun t => String.eqb (tenant_id t) (tenant_id tenant)) (getTenants st) in
  let tenant :=
    if Js.falsy (tenant_id tenant)
    then withId ("tenant-" ++ pretty now) tenant
    else tenant in
  let st := saveTenant tenant st in
  let '(removedCount, st) :=
    if isEdit then reEvaluateTenantMatches tenant st else (0, st) in
  (Json {| saved := tenant; removedCount := removedCount |}, st).

Definition DELETE (id : string) (st : Store) : Response unit * Store :=
  let st := removeTenantTransactionsForTenant id st in
  let st := removeRejectedMatchesForTenant id st in
  let st := deleteTenant id st in
  (Json tt, st).

End TenantsRoute.

(** *** [api/data/accounts] and [api/data/csv-uploads] *)

(** Both routes delete transactions and cascade to the links and the
    rejected matches that mention them. *)
Definition cascade (transactionIdsToDelete : gset string) (st : Data.Store) : Data.Store :=
  let tenantTransactions := Data.getTenantTransactions st in
  let st :=
    Data.write_tenant_transactions
      (List.filter (fun tt => negb (bool_decide
                                      (Data.tt_transactionId tt ∈ transactionIdsToDelete)))
                   tenantTransactions) st in
  let rejectedMatches := Data.getRejectedMatches st in
  Data.write_rejected_matches
    (List.filter (fun rm => negb (bool_decide
                                    (Data.rm_transactionId rm ∈ transactionIdsToDelete)))
                 rejectedMatches) st.

Module AccountsRoute.
Import Data.

(** [DELETE]: the response carries [deletedTransactions]. *)
Definition DELETE (id : string) (st : Store) : Response nat * Store :=
  let allTransactions := getTransactions st in
  let transactionsToDelete :=
    List.filter (fun t => String.eqb (tx_itemId t) id) allTransactions in
  let transactionIdsToDelete : gset string :=
    list_to_set (List.map tx_transactionId transactionsToDelete) in
  let remainingTransactions :=
    List.filter (fun t => negb (String.eqb (tx_itemId t) id)) allTransactions in
  let st := write_transactions remainingTransactions st in
  let st := cascade transactionIdsToDelete st in
  let st := deleteCsvUploadsForAccount id st in
  let st := deleteAccount id st in
  (Json (length transactionsToDelete), st).

End AccountsRoute.

Module CsvUploadsRoute.
Import Data.

Definition DELETE (uploadId : string) (st : Store) : Response nat * Store :=
  if Js.falsy uploadId
  then (ErrorStatus 400, st)
  else
    match deleteCsvUpload uploadId st with
    | (None, st) => (ErrorStatus 404, st)
    | (Some upload, st) =>
        let transactionIdsToDelete : gset string :=
          list_to_set (upload_transactionIds upload) in
        let allTransactions := getTransactions st in
        let remainingTransactions :=
          List.filter (fun t => negb (bool_decide
                                        (tx_transactionId t ∈ transactionIdsToDelete)))
                      allTransactions in
        let st := write_transactions remainingTransactions st in
        let st := cascade transactionIdsToDelete st in
        (Json (length (upload_transactionIds upload)), st)
    end.

End CsvUploadsRoute.

(** ** Operations on the store and reachable states *)

Module Ops.
Import Data.

(** The requests and store updates that change the store. *)
Inductive Op :=
| RunAutoMatch
| Assign (tenantId transactionId : string)
| Unassign (transactionId : string)
| SaveTenant (tenant : Tenant) (now : N)
| DeleteTenant (id : string)
| DeleteAccount (id : string)
| DeleteCsvUpload (uploadId : string)
| SaveAccount (account : Account)
| SaveCsvUpload (upload : CsvUpload)
| SaveTransactions (transactions : list Transaction)
| UpdateTransactions (transactions : list Transaction)
| RemoveTransactions (transactionIds : list string).

Definition step (o : Op) (st : Store) : Store :=
  match o with
  | RunAutoMatch => snd (MatchRoute.POST st)
  | Assign tenantId transactionId =>
      snd (TenantTransactionsRoute.POST tenantId transactionId st)
  | Unassign transactionId => snd (TenantTransactionsRoute.DELETE transactionId st)
  | SaveTenant tenant now => snd (TenantsRoute.POST tenant now st)
  | DeleteTenant id => snd (TenantsRoute.DELETE id st)
  | DeleteAccount id => snd (AccountsRoute.DELETE id st)
  | DeleteCsvUpload uploadId => snd (CsvUploadsRoute.DELETE uploadId st)
  | SaveAccount account => saveAccount account st
  | SaveCsvUpload upload => saveCsvUpload upload st
  | SaveTransactions transactions => saveTransactions transactions st
  | UpdateTransactions transactions => updateTransactions transactions st
  | RemoveTransactions transactionIds => removeTransactions transactionIds st
  end.

Definition run (ops : list Op) (st : Store) : Store :=
  fold_left (fun st o => step o st) ops st.

Definition reachable (st : Store) : Prop :=
  exists ops, st = run ops emptyStore.

End Ops.

(** ** Predicates of the specification *)

Import Data.

(** The links that reference a transaction id. *)
Definition linksOf (transactionId : string) (st : Store) : list TenantTransaction :=
  List.filter (fun tt => String.eqb (tt_transactionId tt) transactionId)
              (getTenantTransactions st).

(** One transaction, at most one tenant. *)
Definition exclusive (st : Store) : Prop :=
  forall transactionId, length (linksOf transactionId st) <= 1.

(** The link written by [addTenantTransaction]. *)
Definition mkLink (tenantId transactionId : string) (manualOverride : bool)
  : TenantTransaction :=
  {| tt_id := tenantId ++ "-" ++ transactionId;
     tt_tenantId := tenantId;
     tt_transactionId := transactionId;
     tt_manualOverride := manualOverride |}.


(** The stores agree on everything but the links. *)
Definition sameButLinks (st st' : Store) : Prop :=
  accounts_json st' = accounts_json st /\
  tenants_json st' = tenants_json st /\
  transactions_json st' = transactions_json st /\
  rejected_matches_json st' = rejected_matches_json st /\
  csv_uploads_json st' = csv_uploads_json st.

(** [sub] occurs in [s]. *)
Definition isSubstring (sub s : string) : Prop :=
  exists pre post, s = (pre ++ sub ++ post)%string.

(** A string made of white space only (the empty string included). *)
Definition blank (s : string) : Prop :=
  forall c, In c (list_ascii_of_string s) -> Js.isWhiteSpace c = true.





(** ** Views of the loops *)

(** The description the match route computes for a deposit. *)
Definition descriptionOf (deposit : Transaction) : string :=
  Js.toUpperCase (tx_name deposit ++ " " ++ Js.orEmpty (tx_merchantName deposit)).

(** The search-term check of the rule: some term that is not blank occurs,
    upper-cased, in the description. *)
Definition termsMatch (searchTerms : list string) (description : string) : bool :=
  existsb (fun term =>
             negb (String.eqb (Js.trim term) "") &&
             Js.includes description (Js.toUpperCase term))
          searchTerms.

(** A tenant the tenant loop stops at for [deposit]: not rejected, and the
    rule matches. *)
Definition candidate (st : Store) (deposit : Transaction) (tenant : Tenant) : bool :=
  negb (isMatchRejected (tenant_id tenant) (tx_transactionId deposit) st) &&
  MatchRoute.isMatch tenant deposit (descriptionOf deposit).

(** The transaction ids referenced by a list of links, as the set the match
    route builds. *)
Definition idsOfLinks (links : list TenantTransaction) : gset string :=
  list_to_set (List.map tt_transactionId links).

(** [assignedIds] holds exactly the transaction ids linked in the store. *)
Definition inSync (s : MatchRoute.Loop) : Prop :=
  MatchRoute.assignedIds s = idsOfLinks (getTenantTransactions (MatchRoute.store s)).

(** The state the tenant loop leaves when it stops at [tenant]. *)
Definition matchedStep (s : MatchRoute.Loop) (tenant : Tenant) (deposit : Transaction)
  : MatchRoute.Loop :=
  {| MatchRoute.store :=
       addTenantTransaction (tenant_id tenant) (tx_transactionId deposit) false
                            (MatchRoute.store s);
     MatchRoute.assignedIds := {[ tx_transactionId deposit ]} ∪ MatchRoute.assignedIds s;
     MatchRoute.matchedCount := S (MatchRoute.matchedCount s) |}.

(** Nothing is left to do for a deposit: it is assigned, or no tenant is a
    candidate for it. *)
Definition settled (tenants : list Tenant) (s : MatchRoute.Loop) (deposit : Transaction)
  : Prop :=
  tx_transactionId deposit ∈ MatchRoute.assignedIds s \/
  List.find (candidate (MatchRoute.store s) deposit) tenants = None.

(** The loop state at the end of the match route. *)
Definition matchRun (st : Store) : MatchRoute.Loop :=
  MatchRoute.depositLoop (getTenants st)
    (List.filter (fun t => PrimFloat.ltb (tx_amount t) 0) (getTransactions st))
    {| MatchRoute.store := st;
       MatchRoute.assignedIds := idsOfLinks (getTenantTransactions st);
       MatchRoute.matchedCount := 0 |}.

(** The test the re-evaluation loop applies to one automatic link: the
    link is retracted when its transaction is gone or fails the rule. *)
Definition retracts (tenant : Tenant) (allTransactions : list Transaction)
           (link : TenantTransaction) : bool :=
  match List.find (fun t => String.eqb (tx_transactionId t) (tt_transactionId link))
                  allTransactions with
  | None => true
  | Some transaction => negb (stillMatches tenant transaction)
  end.

(** The automatic links of a tenant, and those among them the
    re-evaluation retracts. *)
Definition autoMatchedOf (tenant : Tenant) (st : Store) : list TenantTransaction :=
  List.filter (fun tt => String.eqb (tt_tenantId tt) (tenant_id tenant) &&
                         negb (tt_manualOverride tt)) (getTenantTransactions st).

Definition retractedOf (tenant : Tenant) (st : Store) : list TenantTransaction :=
  List.filter (retracts tenant (getTransactions st)) (autoMatchedOf tenant st).

(** ** Scenarios *)

(** Scenario data: a tenant in search-terms mode and a transaction. *)
Definition searchTenant (id : string) (expectedRent tolerance : float)
           (searchTerms : list string) : Tenant :=
  {| tenant_id := id; tenant_name := id; tenant_property := "";
     tenant_expectedRent := expectedRent; tenant_tolerance := tolerance;
     tenant_searchTerms := searchTerms; tenant_accountId := "";
     tenant_matchMode := Some searchTermsMode; tenant_exactAmounts := None |}.

Definition bankLine (id : string) (amount : float) (name : string) : Transaction :=
  {| tx_transactionId := id; tx_accountId := "acc"; tx_itemId := "item";
     tx_amount := amount; tx_date := "2024-01-01"; tx_name := name;
     tx_merchantName := None; tx_pending := false |}.

(** The first-match-wins scenario: tenants A and B with the same rule, one
    deposit of 1000 described SMITH. *)
Definition smithStore : Store :=
  write_transactions [bankLine "t1" (-1000) "SMITH"]
    (write_tenants [searchTenant "A" 1000 50 ["SMITH"];
                    searchTenant "B" 1000 50 ["SMITH"]] emptyStore).

(** A store where transaction t1 is linked, automatically, to tenant A. *)
Definition linkedToA : Store :=
  write_tenant_transactions [mkLink "A" "t1" false] emptyStore.

(** A store that breaks exclusivity: t1 is linked automatically to T and
    manually to U; U also holds t2. No transaction is stored. *)
Definition sharedStore : Store :=
  write_tenant_transactions
    [mkLink "T" "t1" false; mkLink "U" "t1" true; mkLink "U" "t2" true] emptyStore.

(** One tenant T and one deposit t1 that the auto-match has linked to T. *)
Definition matchedStore : Store :=
  Ops.run [Ops.SaveTenant (searchTenant "T" 1000 50 ["SMITH"]) 0;
           Ops.SaveTransactions [bankLine "t1" (-1000) "SMITH"];
           Ops.RunAutoMatch] emptyStore.

(** One tenant T whose rule matches the deposits t1 and t2; t2 was assigned
    by hand, t1 by the auto-match. *)
Definition editStore : Store :=
  Ops.run [Ops.SaveTenant (searchTenant "T" 1000 50 ["SMITH"]) 0;
           Ops.SaveTransactions [bankLine "t1" (-1000) "SMITH";
                                 bankLine "t2" (-1000) "SMITH"];
           Ops.Assign "T" "t2";
           Ops.RunAutoMatch] emptyStore.

(** A tenant in exact-amounts mode. *)
Definition exactTenant (id : string) (exactAmounts : list float) : Tenant :=
  {| tenant_id := id; tenant_name := id; tenant_property := "";
     tenant_expectedRent := 0; tenant_tolerance := 0;
     tenant_searchTerms := []; tenant_accountId := "";
     tenant_matchMode := Some exactAmountsMode; tenant_exactAmounts := Some exactAmounts |}.

(** The end-to-end scenario: tenant ten1 looks for SMITH around 1500, and
    t1 is a Zelle deposit of 1500 from John Smith. *)
Definition zelleStore : Store :=
  write_transactions [bankLine "t1" (-1500) "ZELLE FROM JOHN SMITH"]
    (write_tenants [searchTenant "ten1" 1500 50 ["SMITH"]] emptyStore).





(** ** Further reads and writes of [src/lib/data.ts] *)

Module Queries.
Import Data.

(** Dates are [YYYY-MM-DD] strings and are compared as strings. *)
Definition getTransactionsByDateRange (startDate endDate : string) (st : Store)
  : list Transaction :=
  List.filter (fun t => String.leb startDate (tx_date t) && String.leb (tx_date t) endDate)
              (getTransactions st).

Definition getDepositsByDateRange (startDate endDate : string) (st : Store)
  : list Transaction :=
  List.filter (fun t => PrimFloat.ltb (tx_amount t) 0 &&
                        String.leb startDate (tx_date t) && String.leb (tx_date t) endDate)
              (getTransactions st).

Definition getCsvUploadsForAccount (accountId : string) (st : Store) : list CsvUpload :=
  List.filter (fun u => String.eqb (upload_accountId u) accountId) (getCsvUploads st).

End Queries.

(** The file [rent-payments.json]; no other file refers to it, so the
    functions below pass the list of payments alone. *)
Module Payments.

Inductive PaymentStatus := paid | unpaid | partial.

Record RentPayment := {
  rp_id : string;
  rp_tenantId : string;
  rp_month : string;
  rp_status : PaymentStatus;
  rp_amount : option float;
  rp_date : option string;
  rp_transactionId : option string;
  rp_transactionDesc : option string;
  rp_manualOverride : option bool
}.

Definition sameKey (payment p : RentPayment) : bool :=
  String.eqb (rp_tenantId p) (rp_tenantId payment) &&
  String.eqb (rp_month p) (rp_month payment).

Definition getRentPayments (file : list RentPayment) : list RentPayment := file.

Definition saveRentPayment (payment : RentPayment) (file : list RentPayment)
  : list RentPayment :=
  Data.replaceOrPush (sameKey payment) payment (getRentPayments file).

Definition getRentPaymentsForMonth (month : string) (file : list RentPayment)
  : list RentPayment :=
  List.filter (fun p => String.eqb (rp_month p) month) (getRentPayments file).

(** [payment.id = ...; payment.manualOverride = true] *)
Definition stamped (payment : RentPayment) : RentPayment :=
  {| rp_id := if Js.falsy (rp_id payment)
              then rp_tenantId payment ++ "-" ++ rp_month payment
              else rp_id payment;
     rp_tenantId := rp_tenantId payment;
     rp_month := rp_month payment;
     rp_status := rp_status payment;
     rp_amount := rp_amount payment;
     rp_date := rp_date payment;
     rp_transactionId := rp_transactionId payment;
     rp_transactionDesc := rp_transactionDesc payment;
     rp_manualOverride := Some true |}.

(** [api/data/payments]: [GET] with the optional [month] parameter. *)
Definition GET (month : option string) (file : list RentPayment)
  : Response (list RentPayment) :=
  match month with
  | Some m => if Js.falsy m then Json (getRentPayments file)
              else Json (getRentPaymentsForMonth m file)
  | None => Json (getRentPayments file)
  end.

(** [api/data/payments]: [POST] answers with the payment as saved. *)
Definition POST (payment : RentPayment) (file : list RentPayment)
  : Response RentPayment * list RentPayment :=
  let payment := stamped payment in
  (Json payment, saveRentPayment payment file).

(** The files reached from the empty file by [POST] requests. *)
Definition posted (payments : list RentPayment) : list RentPayment :=
  fold_left (fun file payment => snd (POST payment file)) payments [].

End Payments.

(** The file [sync-cursors.json]. *)
Module Cursors.

Record SyncCursor := {
  sc_itemId : string;
  sc_cursor : string;
  sc_lastSynced : string
}.

Definition getSyncCursors (file : list SyncCursor) : list SyncCursor := file.

Definition getSyncCursor (itemId : string) (file : list SyncCursor) : option SyncCursor :=
  List.find (fun c => String.eqb (sc_itemId c) itemId) (getSyncCursors file).

Definition saveSyncCursor (cursor : SyncCursor) (file : list SyncCursor)
  : list SyncCursor :=
  Data.replaceOrPush (fun c => String.eqb (sc_itemId c) (sc_itemId cursor))
                     cursor (getSyncCursors file).

End Cursors.

(** *** [api/data/transactions] *)

Module TransactionsRoute.
Import Data.

Record Formatted := {
  transaction : Transaction;
  displayAmount : float;
  isDeposit : bool
}.

Definition format (t : Transaction) : Formatted :=
  {| transaction := t;
     displayAmount := PrimFloat.abs (tx_amount t);
     isDeposit := PrimFloat.ltb (tx_amount t) 0 |}.

(** [GET]: the three query parameters are optional strings. *)
Definition GET (startDate endDate depositsOnly : option string) (st : Store)
  : list Formatted :=
  let depositsOnly :=
    match depositsOnly with
    | Some v => String.eqb v "true"
    | None => false
    end in
  let transactions :=
    match startDate, endDate with
    | Some startDate, Some endDate =>
        if negb (Js.falsy startDate) && negb (Js.falsy endDate)
        then if depositsOnly
             then Queries.getDepositsByDateRange startDate endDate st
             else Queries.getTransactionsByDateRange startDate endDate st
        else if depositsOnly
             then List.filter (fun t => PrimFloat.ltb (tx_amount t) 0) (getTransactions st)
             else getTransactions st
    | _, _ =>
        if depositsOnly
        then List.filter (fun t => PrimFloat.ltb (tx_amount t) 0) (getTransactions st)
        else getTransactions st
    end in
  List.map format transactions.

End TransactionsRoute.

(** *** [api/data/csv-upload]: reading the lines of a CSV file *)

Module CsvUpload.

(** The character loop of [parseCSVLine], with its variables [inQuotes],
    [current] and [result]; [chars] is what is left of the line. A doubled
    quote inside quotes is one quote character and both are consumed. *)
Fixpoint parseLoop (chars : string) (inQuotes : bool) (current : string)
         (result : list string) : list string :=
  match chars with
  | EmptyString => result ++ [current]
  | String char rest =>
      if Ascii.eqb char Js.quote
      then match rest with
           | String next rest' =>
               if inQuotes && Ascii.eqb next Js.quote
               then parseLoop rest' inQuotes (current ++ String Js.quote EmptyString) result
               else parseLoop rest (negb inQuotes) current result
           | EmptyString => parseLoop rest (negb inQuotes) current result
           end
      else if Ascii.eqb char "," && negb inQuotes
      then parseLoop rest inQuotes EmptyString (result ++ [current])
      else parseLoop rest inQuotes (current ++ String char EmptyString) result
  end.

(** [parseCSVLine]; [trim] is [String.prototype.trim]. *)
Definition parseCSVLine (trim : string -> string) (line : string) : list string :=
  List.map (fun s => Js.stripQuotes (trim s)) (parseLoop line false EmptyString []).

(** The inner loop of [findColumnIndex]: the first index from [i] on whose
    header, lower-cased and trimmed, passes [test]. *)
Fixpoint headerLoop (test : string -> bool) (headers : list string) (i : nat)
  : option nat :=
  match headers with
  | [] => None
  | h :: rest =>
      if test (Js.trim (Js.toLowerCase h)) then Some i else headerLoop test rest (S i)
  end.

(** The outer loop of one pass: the names are tried in their order. *)
Fixpoint nameLoop (test : string -> string -> bool) (headers possibleNames : list string)
  : option nat :=
  match possibleNames with
  | [] => None
  | name :: rest =>
      match headerLoop (fun header => test header name) headers 0 with
      | Some i => Some i
      | None => nameLoop test headers rest
      end
  end.

(** First pass: exact matches; second pass: partial matches; [-1] when no
    column is found. *)
Definition findColumnIndex (headers possibleNames : list string) : Z :=
  match nameLoop String.eqb headers possibleNames with
  | Some i => Z.of_nat i
  | None =>
      match nameLoop Js.includes headers possibleNames with
      | Some i => Z.of_nat i
      | None => (-1)%Z
      end
  end.

Definition descColNames : list string :=
  ["description"; "desc"; "memo"; "payee"; "name"; "transaction"; "details"].

End CsvUpload.

(** ** Further predicates *)

(** Every link references a stored transaction. *)
Definition linksResolve (st : Store) : Prop :=
  forall link, In link (getTenantTransactions st) ->
               exists transaction, In transaction (getTransactions st) /\
                                   tx_transactionId transaction = tt_transactionId link.

(** The pair a rejected match stands for. *)
Definition pairOf (rm : RejectedMatch) : string * string :=
  (rm_tenantId rm, rm_transactionId rm).

(** A character that is neither a comma nor a double quote. *)
Definition plainChar (c : ascii) : bool :=
  negb (Ascii.eqb c ",") && negb (Ascii.eqb c Js.quote).

(** A CSV field written without quotes. *)
Definition plainField (s : string) : Prop :=
  forall c, In c (list_ascii_of_string s) -> plainChar c = true.

(** The transaction with its amount negated and the rest unchanged. *)
Definition withAmount (amount : float) (t : Transaction) : Transaction :=
  {| tx_transactionId := tx_transactionId t; tx_accountId := tx_accountId t;
     tx_itemId := tx_itemId t; tx_amount := amount; tx_date := tx_date t;
     tx_name := tx_name t; tx_merchantName := tx_merchantName t;
     tx_pending := tx_pending t |}.

(** The tenant with other search terms. *)
Definition withSearchTerms (searchTerms : list string) (t : Tenant) : Tenant :=
  {| tenant_id := tenant_id t; tenant_name := tenant_name t;
     tenant_property := tenant_property t;
     tenant_expectedRent := tenant_expectedRent t;
     tenant_tolerance := tenant_tolerance t;
     tenant_searchTerms := searchTerms;
     tenant_accountId := tenant_accountId t;
     tenant_matchMode := tenant_matchMode t;
     tenant_exactAmounts := tenant_exactAmounts t |}.

(** The transaction with another name and merchant name. *)
Definition withNames (name : string) (merchantName : option string) (t : Transaction)
  : Transaction :=
  {| tx_transactionId := tx_transactionId t; tx_accountId := tx_accountId t;
     tx_itemId := tx_itemId t; tx_amount := tx_amount t; tx_date := tx_date t;
     tx_name := name; tx_merchantName := merchantName;
     tx_pending := tx_pending t |}.

(** The key of a rent payment: its tenant and its month. *)
Definition payKey (p : Payments.RentPayment) : string * string :=
  (Payments.rp_tenantId p, Payments.rp_month p).

Definition eqPair (a b : string * string) : bool :=
  String.eqb (fst a) (fst b) && String.eqb (snd a) (snd b).

(** A cell of a CSV line as a writer produces it: bare, or between double
    quotes. *)
Record Cell := {
  quoted : bool;
  content : string
}.

Definition encodeCell (c : Cell) : string :=
  if quoted c
  then (String Js.quote (content c) ++ String Js.quote EmptyString)%string
  else content c.

(** No double quote in the string. *)
Definition quoteFree (s : string) : Prop :=
  forall c, In c (list_ascii_of_string s) -> Ascii.eqb c Js.quote = false.

(** A bare cell holds neither comma nor quote; a quoted cell holds no quote. *)
Definition wellFormedCell (c : Cell) : Prop :=
  if quoted c then quoteFree (content c) else plainField (content c).

(** The header as [findColumnIndex] compares it. *)
Definition normHeader (h : string) : string := Js.trim (Js.toLowerCase h).

(** What follows a cell: the end of the line, or a comma. *)
Definition cellEnd (rest : string) : Prop :=
  rest = EmptyString \/ exists rest', rest = String "," rest'.

(** ** Binary64 comparisons *)

Section FloatOrder.

Lemma SFcompare_Eq_cases x y :
  SFcompare x y = Some Eq ->
  x = y \/ (exists s s', x = S754_zero s /\ y = S754_zero s').
Proof.
  destruct x as [s| s | |s m e], y as [s'|s'| |s' m' e']; simpl; try discriminate;
    try (destruct s; discriminate); try (destruct s'; discriminate).
  - intros _. right. eauto.
  - destruct s, s'; try discriminate; auto.
  - destruct s, s'; try discriminate;
      destruct (Z.compare_spec e e') as [He|He|He]; try discriminate; subst e'.
    all: intros H; left; f_equal;
      destruct (Pos.compare_cont Eq m m') eqn:Hm; simpl in H; try discriminate;
      apply Pos.compare_eq in Hm; congruence.
Qed.

Lemma SFcompare_Eq_l x y z :
  SFcompare x y = Some Eq -> SFcompare x z = SFcompare y z.
Proof.
  intros H. destruct (SFcompare_Eq_cases _ _ H) as [->|(s & s' & -> & ->)];
    [reflexivity|]. destruct z; reflexivity.
Qed.

Lemma SFcompare_Eq_r x y z :
  SFcompare x y = Some Eq -> SFcompare z x = SFcompare z y.
Proof.
  intros H. destruct (SFcompare_Eq_cases _ _ H) as [->|(s & s' & -> & ->)];
    [reflexivity|]. destruct z; reflexivity.
Qed.

Lemma SFcompare_Eq_self x y : SFcompare x y = Some Eq -> SFcompare y y = Some Eq.
Proof.
  intros H. destruct (SFcompare_Eq_cases _ _ H) as [Heq|(s & s' & _ & ->)].
  - rewrite Heq in H. exact H.
  - reflexivity.
Qed.

Lemma SFcompare_Lt_Gt x y : SFcompare x y = Some Lt -> SFcompare y x = Some Gt.
Proof.
  destruct x as [s| s | |s m e], y as [s'|s'| |s' m' e']; simpl; try discriminate;
    try (destruct s; (discriminate || reflexivity));
    try (destruct s'; (discriminate || reflexivity)).
  - destruct s, s'; (discriminate || reflexivity).
  - change (Pos.compare_cont Eq m m') with (Pos.compare m m').
    change (Pos.compare_cont Eq m' m) with (Pos.compare m' m).
    rewrite (Z.compare_antisym e e'), (Pos.compare_antisym m m').
    destruct s, s'; try (discriminate || reflexivity);
      destruct (Z.compare e e'); simpl; try (discriminate || reflexivity);
      destruct (Pos.compare m m'); simpl; (discriminate || reflexivity).
Qed.

(** A value equal to the lower end of a non-empty range is in the range. *)
Lemma at_lower_bound d lo hi :
  PrimFloat.eqb d lo = true -> PrimFloat.leb lo hi = true ->
  PrimFloat.leb lo d && PrimFloat.leb d hi = true.
Proof.
  rewrite FloatAxioms.eqb_spec, !FloatAxioms.leb_spec. unfold SFeqb, SFleb.
  destruct (SFcompare (Prim2SF d) (Prim2SF lo)) as [[| |]|] eqn:H; try discriminate.
  intros _ Hle.
  rewrite (SFcompare_Eq_l _ _ (Prim2SF hi) H), (SFcompare_Eq_r _ _ (Prim2SF lo) H).
  rewrite (SFcompare_Eq_self _ _ H), Hle. reflexivity.
Qed.

(** A value equal to the upper end of a non-empty range is in the range. *)
Lemma at_upper_bound d lo hi :
  PrimFloat.eqb d hi = true -> PrimFloat.leb lo hi = true ->
  PrimFloat.leb lo d && PrimFloat.leb d hi = true.
Proof.
  rewrite FloatAxioms.eqb_spec, !FloatAxioms.leb_spec. unfold SFeqb, SFleb.
  destruct (SFcompare (Prim2SF d) (Prim2SF hi)) as [[| |]|] eqn:H; try discriminate.
  intros _ Hle.
  rewrite (SFcompare_Eq_r _ _ (Prim2SF lo) H), Hle. reflexivity.
Qed.

(** [x < y] excludes [x >= y]. *)
Lemma ltb_not_geb x y : PrimFloat.ltb x y = true -> PrimFloat.leb y x = false.
Proof.
  rewrite FloatAxioms.ltb_spec, FloatAxioms.leb_spec. unfold SFltb, SFleb.
  destruct (SFcompare (Prim2SF x) (Prim2SF y)) as [[| |]|] eqn:H; try discriminate.
  intros _. rewrite (SFcompare_Lt_Gt _ _ H). reflexivity.
Qed.

End FloatOrder.

(** ** The rule check *)

Section Rule.

Lemma isMatch_searchTerms tenant deposit description :
  tenant_matchMode tenant <> Some exactAmountsMode ->
  MatchRoute.isMatch tenant deposit description =
  (let depositAmount := PrimFloat.abs (tx_amount deposit) in
   let minAmount := (tenant_expectedRent tenant - tenant_tolerance tenant)%float in
   let maxAmount := (tenant_expectedRent tenant + tenant_tolerance tenant)%float in
   PrimFloat.leb minAmount depositAmount && PrimFloat.leb depositAmount maxAmount &&
   termsMatch (tenant_searchTerms tenant) description).
Proof.
  intros Hmode. unfold MatchRoute.isMatch, MatchRoute.isMatchWith, termsMatch.
  destruct (tenant_matchMode tenant) as [[|]|]; simpl; try congruence;
    destruct (_ && _); reflexivity.
Qed.

(** The rule of the match route and the rule of the re-evaluation are the
    same function of the tenant and the transaction. *)
Lemma stillMatches_isMatch tenant transaction :
  stillMatches tenant transaction =
  MatchRoute.isMatch tenant transaction (descriptionOf transaction).
Proof. reflexivity. Qed.

(** The run on the end-to-end scenario reports one match and links t1 to
    ten1 automatically. *)
Example end_to_end :
  fst (MatchRoute.POST zelleStore) = Json 1 /\
  getTenantTransactions (snd (MatchRoute.POST zelleStore)) = [mkLink "ten1" "t1" false].
Proof. vm_compute. split; reflexivity. Qed.

(** Exact amounts are compared within one cent: 875.004 matches 875, 875.02
    does not; the search terms and the tolerance play no part. *)
Example exact_amount_epsilon :
  MatchRoute.isMatch (exactTenant "T" [875%float]) (bankLine "t1" (-875.004) "X") "X " = true /\
  MatchRoute.isMatch (exactTenant "T" [875%float]) (bankLine "t2" (-875.02) "X") "X " = false.
Proof. vm_compute. split; reflexivity. Qed.

(** A missing [matchMode] reads as the search-terms mode. *)
Lemma missing_mode_is_searchTerms tenant deposit description :
  tenant_matchMode tenant = None ->
  MatchRoute.isMatch tenant deposit description =
  MatchRoute.isMatch (searchTenant (tenant_id tenant) (tenant_expectedRent tenant)
                                   (tenant_tolerance tenant) (tenant_searchTerms tenant))
                     deposit description.
Proof.
  intros H. unfold MatchRoute.isMatch, MatchRoute.isMatchWith. rewrite H. reflexivity.
Qed.

End Rule.

(** C8. In search-terms mode the amount filter has inclusive bounds: with
    [minAmount = expectedRent - tolerance] and [maxAmount = expectedRent +
    tolerance] as the route computes them and a non-empty range, a deposit
    whose absolute amount equals either bound passes the filter (the rule
    is then decided by the search terms alone), and one strictly below
    [minAmount] or strictly above [maxAmount] is rejected. For rent 1500 and
    tolerance 50, deposits of 1450 and 1550 match, 1449.99 and 1550.01 do
    not. *)
Theorem amount_bounds_inclusive :
  (forall tenant deposit description,
      tenant_matchMode tenant <> Some exactAmountsMode ->
      let depositAmount := PrimFloat.abs (tx_amount deposit) in
      let minAmount := (tenant_expectedRent tenant - tenant_tolerance tenant)%float in
      let maxAmount := (tenant_expectedRent tenant + tenant_tolerance tenant)%float in
      (PrimFloat.leb minAmount maxAmount = true ->
       PrimFloat.eqb depositAmount minAmount = true \/
       PrimFloat.eqb depositAmount maxAmount = true ->
       MatchRoute.isMatch tenant deposit description =
       termsMatch (tenant_searchTerms tenant) description) /\
      (PrimFloat.ltb depositAmount minAmount = true \/
       PrimFloat.ltb maxAmount depositAmount = true ->
       MatchRoute.isMatch tenant deposit description = false)) /\
  (let tenant := searchTenant "T" 1500 50 ["SMITH"] in
   MatchRoute.isMatch tenant (bankLine "t1" (-1450) "SMITH") "SMITH " = true /\
   MatchRoute.isMatch tenant (bankLine "t2" (-1550) "SMITH") "SMITH " = true /\
   MatchRoute.isMatch tenant (bankLine "t3" (-1449.99) "SMITH") "SMITH " = false /\
   MatchRoute.isMatch tenant (bankLine "t4" (-1550.01) "SMITH") "SMITH " = false).
Proof.
  split.
  - intros tenant deposit description Hmode. cbv zeta.
    rewrite (isMatch_searchTerms _ _ _ Hmode). cbv zeta. split.
    + intros Hrange [Hlo|Hhi].
      * rewrite (at_lower_bound _ _ _ Hlo Hrange). reflexivity.
      * rewrite (at_upper_bound _ _ _ Hhi Hrange). reflexivity.
    + intros [Hlo|Hhi].
      * rewrite (ltb_not_geb _ _ Hlo). reflexivity.
      * rewrite (ltb_not_geb _ _ Hhi), andb_false_r. reflexivity.
  - vm_compute. repeat split; reflexivity.
Qed.

Lemma amount_bounds_inclusive_witness :
  let tenant := searchTenant "T" 1500 50 ["SMITH"] in
  MatchRoute.isMatch tenant (bankLine "t1" (-1450) "SMITH") "SMITH " =
  termsMatch ["SMITH"] "SMITH " /\
  MatchRoute.isMatch tenant (bankLine "t3" (-1449.99) "SMITH") "SMITH " = false.
Proof.
  split.
  - apply (proj1 (proj1 amount_bounds_inclusive
                   (searchTenant "T" 1500 50 ["SMITH"])
                   (bankLine "t1" (-1450) "SMITH") "SMITH " ltac:(discriminate))).
    + reflexivity.
    + left. reflexivity.
  - apply (proj2 (proj1 amount_bounds_inclusive
                   (searchTenant "T" 1500 50 ["SMITH"])
                   (bankLine "t3" (-1449.99) "SMITH") "SMITH " ltac:(discriminate))).
    left. reflexivity.
Defined.

(** ** Lists and links *)

Section ListFacts.
Context {A : Type}.

Lemma filter_filter_length (p q : A -> bool) (l : list A) :
  length (List.filter p (List.filter q l)) <= length (List.filter p l).
Proof.
  induction l as [|x l IH]; simpl; [lia|].
  destruct (q x); destruct (p x) eqn:Hp; simpl; rewrite ?Hp; simpl; lia.
Qed.

Lemma find_none_filter (p : A -> bool) (l : list A) :
  List.find p l = None -> List.filter p l = [].
Proof.
  induction l as [|x l IH]; simpl; [reflexivity|].
  destruct (p x); [discriminate|exact IH].
Qed.

Lemma find_none_iff (p : A -> bool) (l : list A) :
  List.find p l = None <-> (forall x, In x l -> p x = false).
Proof.
  split; [apply find_none|].
  induction l as [|x l IH]; simpl; [reflexivity|]. intros H.
  rewrite (H x) by auto. apply IH. intros y Hy. apply H. auto.
Qed.

Lemma atMostOne_unique (l : list A) (a b : A) :
  length l <= 1 -> In a l -> In b l -> a = b.
Proof.
  destruct l as [|x [|y l]]; simpl; try lia; intuition congruence.
Qed.

End ListFacts.

Section LinkFacts.

Lemma idsOfLinks_app links links' :
  idsOfLinks (links ++ links') = idsOfLinks links ∪ idsOfLinks links'.
Proof. unfold idsOfLinks. rewrite List.map_app. apply list_to_set_app_L. Qed.

Lemma elem_of_idsOfLinks transactionId links :
  transactionId ∈ idsOfLinks links <->
  exists link, In link links /\ tt_transactionId link = transactionId.
Proof.
  unfold idsOfLinks. rewrite elem_of_list_to_set, list_elem_of_In, in_map_iff.
  split; intros (link & H1 & H2); exists link; auto.
Qed.

Lemma find_link_None transactionId links :
  List.find (fun tt => String.eqb (tt_transactionId tt) transactionId) links = None <->
  transactionId ∉ idsOfLinks links.
Proof.
  rewrite find_none_iff, elem_of_idsOfLinks. split.
  - intros H (link & Hin & Heq). specialize (H link Hin).
    apply String.eqb_neq in H. contradiction.
  - intros H link Hin. apply String.eqb_neq. intros Heq. apply H. eauto.
Qed.

Lemma addTenantTransaction_links tenantId transactionId manualOverride st :
  getTenantTransactions (addTenantTransaction tenantId transactionId manualOverride st) =
  match getTenantTransactionByTransactionId transactionId st with
  | Some _ => getTenantTransactions st
  | None => getTenantTransactions st ++ [mkLink tenantId transactionId manualOverride]
  end.
Proof.
  unfold addTenantTransaction, getTenantTransactionByTransactionId.
  destruct (List.find _ _); reflexivity.
Qed.

Lemma addTenantTransaction_frame tenantId transactionId manualOverride st :
  sameButLinks st (addTenantTransaction tenantId transactionId manualOverride st).
Proof.
  unfold addTenantTransaction, sameButLinks.
  destruct (List.find _ _); simpl; auto.
Qed.

Lemma sameButLinks_refl st : sameButLinks st st.
Proof. unfold sameButLinks. auto. Qed.

Lemma sameButLinks_trans st1 st2 st3 :
  sameButLinks st1 st2 -> sameButLinks st2 st3 -> sameButLinks st1 st3.
Proof. unfold sameButLinks. intuition congruence. Qed.

Lemma candidate_frame st st' deposit tenant :
  sameButLinks st st' -> candidate st' deposit tenant = candidate st deposit tenant.
Proof.
  intros (_ & _ & _ & Hrm & _). unfold candidate, isMatchRejected, getRejectedMatches.
  rewrite Hrm. reflexivity.
Qed.

Lemma find_candidate_frame st st' deposit tenants :
  sameButLinks st st' ->
  List.find (candidate st' deposit) tenants = List.find (candidate st deposit) tenants.
Proof.
  intros H. induction tenants as [|t ts IH]; simpl; [reflexivity|].
  rewrite (candidate_frame _ _ _ _ H), IH. reflexivity.
Qed.

End LinkFacts.

(** ** The loops of the match route *)

Section MatchLoops.

(** The tenant loop stops at the first candidate, if there is one. *)
Lemma tenantLoop_first deposit tenants s :
  MatchRoute.tenantLoop deposit (descriptionOf deposit) tenants s =
  match List.find (candidate (MatchRoute.store s) deposit) tenants with
  | Some tenant => matchedStep s tenant deposit
  | None => s
  end.
Proof.
  induction tenants as [|t ts IH]; simpl; [reflexivity|].
  unfold candidate at 1.
  destruct (isMatchRejected _ _ _); simpl; [exact IH|].
  destruct (MatchRoute.isMatch _ _ _); [reflexivity|exact IH].
Qed.

Lemma matchedStep_links s tenant deposit :
  inSync s -> tx_transactionId deposit ∉ MatchRoute.assignedIds s ->
  getTenantTransactions (MatchRoute.store (matchedStep s tenant deposit)) =
  getTenantTransactions (MatchRoute.store s) ++
  [mkLink (tenant_id tenant) (tx_transactionId deposit) false].
Proof.
  intros Hsync Hnot. simpl. rewrite addTenantTransaction_links.
  unfold getTenantTransactionByTransactionId.
  rewrite (proj2 (find_link_None _ _)); [reflexivity|].
  rewrite <- Hsync. exact Hnot.
Qed.

Lemma matchedStep_inSync s tenant deposit :
  inSync s -> tx_transactionId deposit ∉ MatchRoute.assignedIds s ->
  inSync (matchedStep s tenant deposit).
Proof.
  intros Hsync Hnot. unfold inSync.
  rewrite (matchedStep_links _ _ _ Hsync Hnot), idsOfLinks_app.
  simpl. rewrite Hsync. unfold idsOfLinks at 3. simpl.
  rewrite (right_id_L ∅ (∪)). apply (comm_L (∪)).
Qed.

Lemma matchedStep_frame s tenant deposit :
  sameButLinks (MatchRoute.store s) (MatchRoute.store (matchedStep s tenant deposit)).
Proof. apply addTenantTransaction_frame. Qed.

(** What a pass over [deposits] does, from a state where [assignedIds]
    mirrors the store: it appends one automatic link per deposit that was
    not assigned and has a candidate, for the first candidate, counts these
    links, and leaves every deposit settled. *)
Lemma depositLoop_spec tenants deposits : forall s,
  inSync s ->
  let s' := MatchRoute.depositLoop tenants deposits s in
  inSync s' /\
  sameButLinks (MatchRoute.store s) (MatchRoute.store s') /\
  MatchRoute.assignedIds s ⊆ MatchRoute.assignedIds s' /\
  (exists added,
      getTenantTransactions (MatchRoute.store s') =
      getTenantTransactions (MatchRoute.store s) ++ added /\
      MatchRoute.matchedCount s' = MatchRoute.matchedCount s + length added /\
      Forall (fun link =>
                exists deposit tenant,
                  In deposit deposits /\
                  (tx_transactionId deposit ∉ MatchRoute.assignedIds s) /\
                  List.find (candidate (MatchRoute.store s) deposit) tenants = Some tenant /\
                  link = mkLink (tenant_id tenant) (tx_transactionId deposit) false)
             added) /\
  (forall deposit, In deposit deposits -> settled tenants s' deposit).
Proof.
  induction deposits as [|d rest IH]; intros s Hsync; simpl.
  - split; [exact Hsync|]. split; [apply sameButLinks_refl|]. split; [reflexivity|].
    split; [|intros ? []].
    exists []. rewrite app_nil_r. simpl. split; [reflexivity|]. split; [lia|constructor].
  - fold (descriptionOf d). case_bool_decide as Hin.
    + destruct (IH s Hsync) as (Hsync' & Hframe & Hsub & (added & Hlinks & Hcount & Hadded) & Hsettled).
      split; [exact Hsync'|]. split; [exact Hframe|]. split; [exact Hsub|]. split.
      * exists added. split; [exact Hlinks|]. split; [exact Hcount|].
        eapply List.Forall_impl; [|exact Hadded].
        intros link (deposit & tenant & H1 & H2). exists deposit, tenant. simpl. auto.
      * intros deposit [<-|Hrest]; [left; apply Hsub, Hin|apply Hsettled, Hrest].
    + rewrite tenantLoop_first.
      destruct (List.find (candidate (MatchRoute.store s) d) tenants) as [t|] eqn:Hfind.
      * pose proof (matchedStep_inSync s t d Hsync Hin) as Hsync1.
        pose proof (matchedStep_links s t d Hsync Hin) as Hlinks1.
        pose proof (matchedStep_frame s t d) as Hframe1.
        destruct (IH _ Hsync1)
          as (Hsync' & Hframe & Hsub & (added & Hlinks & Hcount & Hadded) & Hsettled).
        assert (Hsub1 : MatchRoute.assignedIds s ⊆
                        MatchRoute.assignedIds (matchedStep s t d)).
        { simpl. apply union_subseteq_r. }
        split; [exact Hsync'|].
        split; [exact (sameButLinks_trans _ _ _ Hframe1 Hframe)|].
        split; [etrans; eassumption|]. split.
        -- exists (mkLink (tenant_id t) (tx_transactionId d) false :: added).
           split; [rewrite Hlinks, Hlinks1, <- app_assoc; reflexivity|].
           split; [rewrite Hcount; simpl; lia|].
           constructor.
           ++ exists d, t. simpl. auto.
           ++ eapply List.Forall_impl; [|exact Hadded].
              intros link (deposit & tenant & H1 & H2 & H3 & H4).
              exists deposit, tenant. simpl. split; [auto|].
              split; [intros Hc; apply H2, Hsub1, Hc|].
              split; [|exact H4].
              rewrite <- (find_candidate_frame _ _ _ _ Hframe1). exact H3.
        -- intros deposit [<-|Hrest]; [|apply Hsettled, Hrest].
           left. apply Hsub. simpl. apply elem_of_union_l, elem_of_singleton. reflexivity.
      * destruct (IH s Hsync)
          as (Hsync' & Hframe & Hsub & (added & Hlinks & Hcount & Hadded) & Hsettled).
        split; [exact Hsync'|]. split; [exact Hframe|]. split; [exact Hsub|]. split.
        -- exists added. split; [exact Hlinks|]. split; [exact Hcount|].
           eapply List.Forall_impl; [|exact Hadded].
           intros link (deposit & tenant & H1 & H2). exists deposit, tenant. simpl. auto.
        -- intros deposit [<-|Hrest]; [|apply Hsettled, Hrest].
           right. rewrite (find_candidate_frame _ _ _ _ Hframe). exact Hfind.
Qed.

(** A pass over deposits that are all settled changes nothing. *)
Lemma depositLoop_settled tenants deposits s :
  (forall deposit, In deposit deposits -> settled tenants s deposit) ->
  MatchRoute.depositLoop tenants deposits s = s.
Proof.
  induction deposits as [|d rest IH]; intros Hsettled; simpl; [reflexivity|].
  fold (descriptionOf d). case_bool_decide as Hin.
  - apply IH. intros deposit Hd. apply Hsettled. right. exact Hd.
  - destruct (Hsettled d (or_introl eq_refl)) as [Hd|Hd]; [contradiction|].
    rewrite tenantLoop_first, Hd. apply IH.
    intros deposit Hrest. apply Hsettled. right. exact Hrest.
Qed.

(** The state the route starts its loops from. *)
Lemma POST_start_inSync st :
  inSync {| MatchRoute.store := st;
            MatchRoute.assignedIds := idsOfLinks (getTenantTransactions st);
            MatchRoute.matchedCount := 0 |}.
Proof. reflexivity. Qed.

Lemma POST_matchRun st :
  MatchRoute.POST st =
  (Json (MatchRoute.matchedCount (matchRun st)), MatchRoute.store (matchRun st)).
Proof. reflexivity. Qed.

(** The links a run adds are links of first candidates, and the rest of the
    store is untouched. *)
Lemma matchRun_added st :
  sameButLinks st (MatchRoute.store (matchRun st)) /\
  exists added,
    getTenantTransactions (MatchRoute.store (matchRun st)) =
    getTenantTransactions st ++ added /\
    Forall (fun link =>
              exists deposit tenant,
                List.find (candidate st deposit) (getTenants st) = Some tenant /\
                link = mkLink (tenant_id tenant) (tx_transactionId deposit) false)
           added.
Proof.
  destruct (depositLoop_spec (getTenants st)
              (List.filter (fun t => PrimFloat.ltb (tx_amount t) 0) (getTransactions st))
              _ (POST_start_inSync st))
    as (_ & Hframe & _ & (added & Hlinks & _ & Hadded) & _).
  split; [exact Hframe|]. exists added. split; [exact Hlinks|].
  eapply List.Forall_impl; [|exact Hadded].
  intros link (deposit & tenant & _ & _ & Hfind & Heq). eauto.
Qed.

End MatchLoops.

(** ** At most one link per transaction *)

Section AtMostOne.

Lemma linksOf_write links st transactionId :
  linksOf transactionId (write_tenant_transactions links st) =
  List.filter (fun tt => String.eqb (tt_transactionId tt) transactionId) links.
Proof. reflexivity. Qed.

Lemma addTenantTransaction_atMostOne transactionId tenantId transactionId' manual st :
  length (linksOf transactionId st) <= 1 ->
  length (linksOf transactionId
            (addTenantTransaction tenantId transactionId' manual st)) <= 1.
Proof.
  intros H. unfold linksOf. rewrite addTenantTransaction_links.
  unfold getTenantTransactionByTransactionId.
  destruct (List.find _ _) eqn:Hfind; [exact H|].
  rewrite List.filter_app. simpl.
  destruct (String.eqb_spec transactionId' transactionId) as [->|Hne].
  - rewrite (find_none_filter _ _ Hfind). simpl. lia.
  - rewrite app_nil_r. exact H.
Qed.

Lemma tenantLoop_atMostOne transactionId deposit tenants s :
  length (linksOf transactionId (MatchRoute.store s)) <= 1 ->
  length (linksOf transactionId
            (MatchRoute.store
               (MatchRoute.tenantLoop deposit (descriptionOf deposit) tenants s))) <= 1.
Proof.
  intros H. rewrite tenantLoop_first. destruct (List.find _ _); [|exact H].
  simpl. apply addTenantTransaction_atMostOne, H.
Qed.

Lemma depositLoop_atMostOne transactionId tenants deposits : forall s,
  length (linksOf transactionId (MatchRoute.store s)) <= 1 ->
  length (linksOf transactionId
            (MatchRoute.store (MatchRoute.depositLoop tenants deposits s))) <= 1.
Proof.
  induction deposits as [|d rest IH]; intros s H; simpl; [exact H|].
  fold (descriptionOf d). case_bool_decide; [apply IH, H|].
  apply IH, tenantLoop_atMostOne, H.
Qed.

End AtMostOne.

(** ** The auto-match run *)

(** C9. A run of the auto-match only appends links, all of them automatic:
    the links present before the run are still there, unchanged and in
    place, and accounts, tenants, transactions, rejected matches and CSV
    uploads are what they were. The reported [matched] is the number of
    appended links. *)
Theorem auto_match_additive (st : Store) :
  exists added,
    getTenantTransactions (snd (MatchRoute.POST st)) = getTenantTransactions st ++ added /\
    Forall (fun link => tt_manualOverride link = false) added /\
    fst (MatchRoute.POST st) = Json (length added) /\
    sameButLinks st (snd (MatchRoute.POST st)).
Proof.
  unfold MatchRoute.POST. simpl.
  destruct (depositLoop_spec (getTenants st)
              (List.filter (fun t => PrimFloat.ltb (tx_amount t) 0) (getTransactions st))
              _ (POST_start_inSync st))
    as (_ & Hframe & _ & (added & Hlinks & Hcount & Hadded) & _).
  exists added. split; [exact Hlinks|]. split.
  - eapply List.Forall_impl; [|exact Hadded].
    intros link (deposit & tenant & _ & _ & _ & ->). reflexivity.
  - split; [|exact Hframe]. f_equal. exact Hcount.
Qed.

(** C3. Running the auto-match twice in a row, the second run reports
    [matched = 0], whatever the state before the first run. *)
Theorem auto_match_idempotent (st : Store) :
  fst (MatchRoute.POST (snd (MatchRoute.POST st))) = Json 0.
Proof.
  unfold MatchRoute.POST at 2. simpl snd.
  set (deposits := List.filter (fun t => PrimFloat.ltb (tx_amount t) 0) (getTransactions st)).
  destruct (depositLoop_spec (getTenants st) deposits _ (POST_start_inSync st))
    as (Hsync & Hframe & _ & _ & Hsettled).
  set (s1 := MatchRoute.depositLoop (getTenants st) deposits _) in *.
  simpl in Hframe. destruct Hframe as (_ & Htenants & Htransactions & _).
  unfold MatchRoute.POST, getTenants, getTransactions. simpl fst.
  rewrite Htenants, Htransactions. fold (getTransactions st) (getTenants st). fold deposits.
  rewrite depositLoop_settled; [reflexivity|].
  intros deposit Hd. destruct (Hsettled deposit Hd) as [Hin|Hnone].
  - left. simpl. fold (idsOfLinks (getTenantTransactions (MatchRoute.store s1))).
    rewrite <- Hsync. exact Hin.
  - right. exact Hnone.
Qed.




(** ** Exclusivity along operations *)

Section Exclusivity.

Lemma linksOf_same st st' transactionId :
  getTenantTransactions st' = getTenantTransactions st ->
  length (linksOf transactionId st) <= 1 -> length (linksOf transactionId st') <= 1.
Proof. unfold linksOf. intros ->. auto. Qed.

Lemma linksOf_filtered q st st' transactionId :
  getTenantTransactions st' = List.filter q (getTenantTransactions st) ->
  length (linksOf transactionId st) <= 1 -> length (linksOf transactionId st') <= 1.
Proof.
  unfold linksOf. intros -> H.
  etrans; [apply filter_filter_length|exact H].
Qed.

Lemma addRejectedMatch_links tenantId transactionId st :
  getTenantTransactions (addRejectedMatch tenantId transactionId st) =
  getTenantTransactions st.
Proof. unfold addRejectedMatch. destruct (List.find _ _); reflexivity. Qed.

Lemma reEvaluateTenantMatches_links tenant st :
  let toRemove :=
    reEvaluateLoop tenant (getTransactions st)
      (List.filter (fun tt => String.eqb (tt_tenantId tt) (tenant_id tenant) &&
                              negb (tt_manualOverride tt)) (getTenantTransactions st)) [] in
  fst (reEvaluateTenantMatches tenant st) = length toRemove /\
  getTenantTransactions (snd (reEvaluateTenantMatches tenant st)) =
  List.filter (fun tt => negb (arrayIncludes toRemove (tt_transactionId tt)))
              (getTenantTransactions st).
Proof.
  unfold reEvaluateTenantMatches. simpl. split; [reflexivity|].
  destruct (reEvaluateLoop _ _ _ _) as [|x l] eqn:Hloop; simpl; [|reflexivity].
  symmetry. apply forallb_filter_id. apply forallb_forall. reflexivity.
Qed.

Lemma cascade_links ids st :
  getTenantTransactions (cascade ids st) =
  List.filter (fun tt => negb (bool_decide (tt_transactionId tt ∈ ids)))
              (getTenantTransactions st).
Proof. reflexivity. Qed.

(** Saving a tenant only removes links. *)
Lemma TenantsRoute_POST_links tenant now st :
  exists q, getTenantTransactions (snd (TenantsRoute.POST tenant now st)) =
            List.filter q (getTenantTransactions st).
Proof.
  unfold TenantsRoute.POST. set (tenant' := if Js.falsy _ then _ else _).
  destruct (negb _ && _).
  - destruct (reEvaluateTenantMatches_links tenant' (saveTenant tenant' st)) as [_ Hl].
    destruct (reEvaluateTenantMatches tenant' (saveTenant tenant' st)) as [n st'].
    simpl in *. eexists. exact Hl.
  - simpl. exists (fun _ => true). symmetry. apply forallb_filter_id.
    apply forallb_forall. reflexivity.
Qed.

(** Every operation keeps the links of a transaction at most one. *)
Lemma step_atMostOne o st transactionId :
  length (linksOf transactionId st) <= 1 ->
  length (linksOf transactionId (Ops.step o st)) <= 1.
Proof.
  intros H. destruct o; simpl.
  - apply depositLoop_atMostOne. exact H.
  - unfold TenantTransactionsRoute.POST. destruct (_ || _); simpl; [exact H|].
    apply addTenantTransaction_atMostOne. exact H.
  - unfold TenantTransactionsRoute.DELETE. destruct (Js.falsy _); simpl; [exact H|].
    eapply linksOf_filtered; [reflexivity|].
    destruct (getTenantTransactionByTransactionId _ _); [|exact H].
    eapply linksOf_same; [apply addRejectedMatch_links|exact H].
  - destruct (TenantsRoute_POST_links tenant now st) as [q Hq].
    eapply linksOf_filtered; [exact Hq|exact H].
  - eapply linksOf_filtered; [reflexivity|exact H].
  - eapply linksOf_filtered; [reflexivity|exact H].
  - unfold CsvUploadsRoute.DELETE. destruct (Js.falsy _); simpl; [exact H|].
    unfold deleteCsvUpload. destruct (List.find _ _); simpl; [|exact H].
    eapply linksOf_filtered; [reflexivity|exact H].
  - exact H.
  - exact H.
  - exact H.
  - exact H.
  - exact H.
Qed.

Lemma run_atMostOne ops : forall st transactionId,
  length (linksOf transactionId st) <= 1 ->
  length (linksOf transactionId (Ops.run ops st)) <= 1.
Proof.
  induction ops as [|o ops IH]; intros st transactionId H; simpl; [exact H|].
  apply IH, step_atMostOne, H.
Qed.


End Exclusivity.

(** C2. In every state reached from the empty store by auto-match runs,
    manual assigns, unassigns, tenant saves (with their re-evaluation),
    tenant, account and CSV-upload deletions (with their cascades) and
    transaction updates, each transaction id is referenced by at most one
    link. *)
Theorem exclusivity_reachable (ops : list Ops.Op) (transactionId : string) :
  length (linksOf transactionId (Ops.run ops emptyStore)) <= 1.
Proof. apply run_atMostOne. simpl. lia. Qed.

(** ** Strings *)

Section StringFacts.

Lemma startsWith_spec sub : forall s,
  Js.startsWith s sub = true <-> exists post, s = (sub ++ post)%string.
Proof.
  induction sub as [|c sub IH]; intros s; simpl.
  - split; [intros _; exists s; reflexivity|intros _; destruct s; reflexivity].
  - destruct s as [|d s]; simpl.
    + split; [discriminate|intros [post H]; discriminate].
    + rewrite andb_true_iff, Ascii.eqb_eq, IH. split.
      * intros [-> [post ->]]. exists post. reflexivity.
      * intros [post H]. injection H as -> ->. eauto.
Qed.

Lemma includes_unfold s sub :
  Js.includes s sub =
  Js.startsWith s sub ||
  match s with EmptyString => false | String _ s' => Js.includes s' sub end.
Proof. destruct s; reflexivity. Qed.

Lemma includes_spec sub : forall s,
  Js.includes s sub = true <-> isSubstring sub s.
Proof.
  unfold isSubstring.
  induction s as [|d s IH]; rewrite includes_unfold, orb_true_iff, startsWith_spec.
  - split.
    + intros [[post H]|H]; [|discriminate]. exists "", post. exact H.
    + intros (pre & post & H). left. destruct pre; [exists post; exact H|discriminate].
  - rewrite IH. split.
    + intros [[post H]|(pre & post & H)].
      * exists "", post. exact H.
      * exists (String d pre), post. simpl. rewrite H. reflexivity.
    + intros (pre & post & H). destruct pre as [|e pre]; simpl in H.
      * left. exists post. exact H.
      * right. injection H as -> ->. eauto.
Qed.

Lemma trimStart_empty s : Js.trimStart s = "" <-> blank s.
Proof.
  unfold blank. induction s as [|c s IH]; simpl.
  - split; [intros _ ? []|reflexivity].
  - destruct (Js.isWhiteSpace c) eqn:Hc.
    + rewrite IH. split.
      * intros H x [<-|Hx]; auto.
      * intros H x Hx. apply H. auto.
    + split; [discriminate|]. intros H. rewrite (H c) in Hc by auto. discriminate.
Qed.

Lemma trimEnd_empty s : Js.trimEnd s = "" <-> blank s.
Proof.
  unfold blank. induction s as [|c s IH]; simpl.
  - split; [intros _ ? []|reflexivity].
  - destruct (Js.isWhiteSpace c) eqn:Hc; simpl.
    + destruct (String.eqb_spec (Js.trimEnd s) "") as [He|He].
      * split; [|reflexivity]. intros _ x [<-|Hx]; [exact Hc|]. apply IH; assumption.
      * split; [discriminate|]. intros H. exfalso. apply He, IH. intros x Hx. apply H. auto.
    + split; [discriminate|]. intros H. rewrite (H c) in Hc by auto. discriminate.
Qed.

Lemma trimStart_head s :
  match Js.trimStart s with "" => True | String c _ => Js.isWhiteSpace c = false end.
Proof.
  induction s as [|d s IH]; simpl; [exact I|].
  destruct (Js.isWhiteSpace d) eqn:Hd; [exact IH|exact Hd].
Qed.

Lemma trim_empty s : Js.trim s = "" <-> blank s.
Proof.
  unfold Js.trim. rewrite trimEnd_empty. split.
  - intros H. apply trimStart_empty.
    pose proof (trimStart_head s) as Hh. destruct (Js.trimStart s) as [|c r]; [reflexivity|].
    rewrite (H c) in Hh by (simpl; auto). discriminate.
  - intros H. rewrite (proj2 (trimStart_empty s) H). intros ? [].
Qed.

End StringFacts.

(** ** The search-term rule *)

Lemma termsMatch_spec searchTerms description :
  termsMatch searchTerms description = true <->
  exists term, In term searchTerms /\ ~ blank term /\
               isSubstring (Js.toUpperCase term) description.
Proof.
  unfold termsMatch. rewrite existsb_exists. split.
  - intros (term & Hin & H). apply andb_true_iff in H. destruct H as [Ht Hi].
    exists term. split; [exact Hin|]. split.
    + rewrite <- trim_empty. apply negb_true_iff, String.eqb_neq in Ht. exact Ht.
    + apply includes_spec, Hi.
  - intros (term & Hin & Hb & Hs). exists term. split; [exact Hin|].
    apply andb_true_iff. split.
    + apply negb_true_iff, String.eqb_neq. rewrite trim_empty. exact Hb.
    + apply includes_spec, Hs.
Qed.

Lemma isMatchWith_searchTerms toUpperCase trim tenant deposit description :
  tenant_matchMode tenant <> Some exactAmountsMode ->
  MatchRoute.isMatchWith toUpperCase trim tenant deposit description =
  (let depositAmount := PrimFloat.abs (tx_amount deposit) in
   let minAmount := (tenant_expectedRent tenant - tenant_tolerance tenant)%float in
   let maxAmount := (tenant_expectedRent tenant + tenant_tolerance tenant)%float in
   PrimFloat.leb minAmount depositAmount && PrimFloat.leb depositAmount maxAmount &&
   existsb (fun term =>
              negb (String.eqb (trim term) "") &&
              Js.includes description (toUpperCase term))
           (tenant_searchTerms tenant)).
Proof.
  intros Hmode. unfold MatchRoute.isMatchWith.
  destruct (tenant_matchMode tenant) as [[|]|]; simpl; try congruence;
    destruct (_ && _); reflexivity.
Qed.

(** C7, as the code has it. Whatever [toUpperCase] and [trim] of the string
    library return, for a tenant in search-terms mode and a transaction
    whose absolute amount is within the tolerance range, the rule holds
    exactly when some search term whose [trim] is not the empty string
    occurs, upper-cased, in the upper-cased [name + " " + merchantName]; the
    match route and the re-evaluation compute the same rule. *)
Theorem search_terms_rule (toUpperCase trim : string -> string) tenant transaction :
  tenant_matchMode tenant <> Some exactAmountsMode ->
  PrimFloat.leb (tenant_expectedRent tenant - tenant_tolerance tenant)
                (PrimFloat.abs (tx_amount transaction)) &&
  PrimFloat.leb (PrimFloat.abs (tx_amount transaction))
                (tenant_expectedRent tenant + tenant_tolerance tenant) = true ->
  let description :=
    toUpperCase (tx_name transaction ++ " " ++
                 Js.orEmpty (tx_merchantName transaction))%string in
  (MatchRoute.isMatchWith toUpperCase trim tenant transaction description = true <->
   exists term, In term (tenant_searchTerms tenant) /\ trim term <> "" /\
                isSubstring (toUpperCase term) description) /\
  stillMatchesWith toUpperCase trim tenant transaction =
  MatchRoute.isMatchWith toUpperCase trim tenant transaction description.
Proof.
  intros Hmode Hrange description. split; [|reflexivity].
  rewrite (isMatchWith_searchTerms _ _ _ _ _ Hmode). cbv zeta. rewrite Hrange.
  cbn [andb]. rewrite existsb_exists. split.
  - intros (term & Hin & H). apply andb_true_iff in H. destruct H as [Ht Hi].
    exists term. split; [exact Hin|]. split.
    + apply negb_true_iff, String.eqb_neq in Ht. exact Ht.
    + apply includes_spec, Hi.
  - intros (term & Hin & Ht & Hs). exists term. split; [exact Hin|].
    apply andb_true_iff. split.
    + apply negb_true_iff, String.eqb_neq. exact Ht.
    + apply includes_spec, Hs.
Qed.

Lemma search_terms_rule_witness :
  let tenant := searchTenant "ten1" 1500 50 ["SMITH"] in
  let transaction := bankLine "t1" (-1500) "ZELLE FROM JOHN SMITH" in
  (MatchRoute.isMatchWith Js.toUpperCase Js.trim tenant transaction
                          "ZELLE FROM JOHN SMITH " = true <->
   exists term, In term ["SMITH"] /\ Js.trim term <> "" /\
                isSubstring (Js.toUpperCase term) "ZELLE FROM JOHN SMITH ") /\
  stillMatchesWith Js.toUpperCase Js.trim tenant transaction =
  MatchRoute.isMatchWith Js.toUpperCase Js.trim tenant transaction
                         "ZELLE FROM JOHN SMITH ".
Proof.
  apply (search_terms_rule Js.toUpperCase Js.trim
                           (searchTenant "ten1" 1500 50 ["SMITH"])
                           (bankLine "t1" (-1500) "ZELLE FROM JOHN SMITH")).
  - discriminate.
  - reflexivity.
Defined.

(** C7, counterexample to the claim as stated: the search term [" "] is not
    empty and occurs in the description ["SMITH "], the amount is within
    range, and the rule is false. *)
Lemma blank_term_does_not_count :
  let tenant := searchTenant "T" 1000 50 [" "] in
  let deposit := bankLine "t1" (-1000) "SMITH" in
  let description :=
    Js.toUpperCase (tx_name deposit ++ " " ++ Js.orEmpty (tx_merchantName deposit)) in
  PrimFloat.leb (tenant_expectedRent tenant - tenant_tolerance tenant)
                (PrimFloat.abs (tx_amount deposit)) &&
  PrimFloat.leb (PrimFloat.abs (tx_amount deposit))
                (tenant_expectedRent tenant + tenant_tolerance tenant) = true /\
  ~ (MatchRoute.isMatch tenant deposit description = true <->
     exists term, In term (tenant_searchTerms tenant) /\ term <> "" /\
                  isSubstring (Js.toUpperCase term) description).
Proof.
  intros tenant deposit description. split; [reflexivity|]. intros [_ H].
  assert (Hfalse : MatchRoute.isMatch tenant deposit description = false) by reflexivity.
  rewrite Hfalse in H.
  assert (false = true); [|discriminate].
  apply H. exists " ". split; [left; reflexivity|]. split; [discriminate|].
  exists "SMITH", "". reflexivity.
Qed.

(** ** Manual assignment *)

Lemma existsb_filter_negb {A} (p : A -> bool) (l : list A) :
  existsb p (List.filter (fun x => negb (p x)) l) = false.
Proof.
  induction l as [|x l IH]; simpl; [reflexivity|].
  destruct (p x) eqn:Hp; simpl; [exact IH|]. rewrite Hp. exact IH.
Qed.

Lemma falsy_false s : s <> "" -> Js.falsy s = false.
Proof. intros H. apply String.eqb_neq, H. Qed.

(** C1, counterexample to the claim as stated: t1 is linked to A; the manual
    assign of t1 to B succeeds and leaves t1 linked to A, automatically; no
    link to B exists. *)
Lemma assign_does_not_move :
  let st' := snd (TenantTransactionsRoute.POST "B" "t1" linkedToA) in
  fst (TenantTransactionsRoute.POST "B" "t1" linkedToA) = Json tt /\
  getTenantTransactionByTransactionId "t1" st' = Some (mkLink "A" "t1" false) /\
  ~ (exists link, In link (getTenantTransactions st') /\ tt_tenantId link = "B").
Proof.
  simpl. split; [reflexivity|]. split; [reflexivity|].
  intros (link & [<-|[]] & H). discriminate.
Qed.

(** C1, as the code has it. A manual assign with an empty id is refused and
    changes nothing. With both ids non-empty it removes the rejected match of
    that exact pair and no other; then, when no link references the
    transaction, it appends the manual link of the pair, and when a link
    already references the transaction (for whichever tenant) it leaves the
    links as they are. Nothing else changes. *)
Theorem manual_assign_effect tenantId transactionId st :
  let st' := snd (TenantTransactionsRoute.POST tenantId transactionId st) in
  (tenantId = "" \/ transactionId = "" ->
   TenantTransactionsRoute.POST tenantId transactionId st = (ErrorStatus 400, st)) /\
  (tenantId <> "" -> transactionId <> "" ->
   fst (TenantTransactionsRoute.POST tenantId transactionId st) = Json tt /\
   getRejectedMatches st' =
   List.filter (fun rm => negb (samePair tenantId transactionId rm)) (getRejectedMatches st) /\
   isMatchRejected tenantId transactionId st' = false /\
   (getTenantTransactionByTransactionId transactionId st = None ->
    getTenantTransactions st' =
    getTenantTransactions st ++ [mkLink tenantId transactionId true]) /\
   (forall existing,
       getTenantTransactionByTransactionId transactionId st = Some existing ->
       getTenantTransactions st' = getTenantTransactions st) /\
   accounts_json st' = accounts_json st /\ tenants_json st' = tenants_json st /\
   transactions_json st' = transactions_json st /\
   csv_uploads_json st' = csv_uploads_json st).
Proof.
  unfold TenantTransactionsRoute.POST. split.
  - intros [->| ->]; simpl; [reflexivity|].
    rewrite orb_true_r. reflexivity.
  - intros H1 H2. rewrite (falsy_false _ H1), (falsy_false _ H2). simpl.
    unfold addTenantTransaction, getTenantTransactionByTransactionId. simpl.
    destruct (List.find _ (tenant_transactions_json st)) as [existing|] eqn:Hfind; simpl;
      unfold isMatchRejected; simpl; rewrite existsb_filter_negb;
      repeat split; try reflexivity; try discriminate.
    all: unfold getTenantTransactions; rewrite Hfind; discriminate.
Qed.

Lemma manual_assign_effect_witness :
  getTenantTransactions (snd (TenantTransactionsRoute.POST "A" "t1" emptyStore)) =
  [mkLink "A" "t1" true] /\
  getTenantTransactions (snd (TenantTransactionsRoute.POST "B" "t1" linkedToA)) =
  [mkLink "A" "t1" false] /\
  TenantTransactionsRoute.POST "" "t1" linkedToA = (ErrorStatus 400, linkedToA).
Proof.
  split; [|split].
  - apply (proj2 (manual_assign_effect "A" "t1" emptyStore));
      [discriminate|discriminate|reflexivity].
  - apply (proj2 (manual_assign_effect "B" "t1" linkedToA) ltac:(discriminate)
                 ltac:(discriminate)) with (existing := mkLink "A" "t1" false).
    reflexivity.
  - apply (proj1 (manual_assign_effect "" "t1" linkedToA)). left. reflexivity.
Defined.

(** ** Re-evaluation after a tenant edit *)

Section ReEvaluation.

Lemma reEvaluateLoop_eq tenant allTransactions autoMatched : forall acc,
  reEvaluateLoop tenant allTransactions autoMatched acc =
  acc ++ List.map tt_transactionId (List.filter (retracts tenant allTransactions) autoMatched).
Proof.
  induction autoMatched as [|link rest IH]; intros acc; simpl.
  - rewrite app_nil_r. reflexivity.
  - unfold retracts at 1.
    destruct (List.find _ allTransactions) as [transaction|]; simpl.
    + destruct (stillMatches tenant transaction); simpl; rewrite IH; [reflexivity|].
      rewrite <- app_assoc. reflexivity.
    + rewrite IH, <- app_assoc. reflexivity.
Qed.

Lemma arrayIncludes_In arr x : arrayIncludes arr x = true <-> In x arr.
Proof.
  unfold arrayIncludes. rewrite existsb_exists. split.
  - intros (y & Hy & Heq). apply String.eqb_eq in Heq. congruence.
  - intros H. exists x. split; [exact H|apply String.eqb_refl].
Qed.

(** The count returned and the links left by the re-evaluation. *)
Lemma reEvaluateTenantMatches_spec tenant st :
  fst (reEvaluateTenantMatches tenant st) = length (retractedOf tenant st) /\
  getTenantTransactions (snd (reEvaluateTenantMatches tenant st)) =
  List.filter (fun tt => negb (arrayIncludes
                                 (List.map tt_transactionId (retractedOf tenant st))
                                 (tt_transactionId tt)))
              (getTenantTransactions st) /\
  sameButLinks st (snd (reEvaluateTenantMatches tenant st)).
Proof.
  destruct (reEvaluateTenantMatches_links tenant st) as [Hcount Hlinks].
  cbv zeta in Hcount, Hlinks. rewrite reEvaluateLoop_eq in Hcount, Hlinks.
  simpl in Hcount, Hlinks. rewrite length_map in Hcount.
  split; [exact Hcount|]. split; [exact Hlinks|].
  unfold reEvaluateTenantMatches. simpl. destruct (_ <? _)%nat; apply sameButLinks_refl
    || (unfold sameButLinks; simpl; auto).
Qed.

Lemma In_retractedOf tenant st link :
  In link (retractedOf tenant st) <->
  In link (getTenantTransactions st) /\
  tt_tenantId link = tenant_id tenant /\
  tt_manualOverride link = false /\
  retracts tenant (getTransactions st) link = true.
Proof.
  unfold retractedOf, autoMatchedOf. rewrite !filter_In, andb_true_iff, String.eqb_eq,
    negb_true_iff. tauto.
Qed.

(** A link disappears exactly when it shares its transaction id with a
    retracted link. *)
Lemma reEvaluate_removed tenant st link :
  In link (getTenantTransactions st) ->
  (~ In link (getTenantTransactions (snd (reEvaluateTenantMatches tenant st))) <->
   exists retractedLink,
     In retractedLink (retractedOf tenant st) /\
     tt_transactionId retractedLink = tt_transactionId link).
Proof.
  intros Hin. destruct (reEvaluateTenantMatches_spec tenant st) as (_ & -> & _).
  rewrite filter_In, negb_true_iff.
  destruct (arrayIncludes _ _) eqn:Hinc.
  - apply arrayIncludes_In, in_map_iff in Hinc. destruct Hinc as (r & Hr1 & Hr2).
    split; [intros _; exists r; auto|]. intros _ [_ H]. discriminate.
  - split; [intros H; exfalso; apply H; auto|].
    intros (r & Hr1 & Hr2). exfalso.
    assert (arrayIncludes (List.map tt_transactionId (retractedOf tenant st))
                          (tt_transactionId link) = true); [|congruence].
    apply arrayIncludes_In, in_map_iff. exists r. auto.
Qed.

Lemma exclusive_same_link st link link' :
  exclusive st ->
  In link (getTenantTransactions st) -> In link' (getTenantTransactions st) ->
  tt_transactionId link = tt_transactionId link' -> link = link'.
Proof.
  intros Hex H1 H2 Heq.
  apply (atMostOne_unique (linksOf (tt_transactionId link) st)); [apply Hex| |];
    apply filter_In; split; auto; apply String.eqb_eq; auto.
Qed.

(** Under exclusivity the lookup by transaction id returns the one link
    of the transaction. *)
Lemma exclusive_lookup st link :
  exclusive st -> In link (getTenantTransactions st) ->
  getTenantTransactionByTransactionId (tt_transactionId link) st = Some link.
Proof.
  intros Hex Hin. unfold getTenantTransactionByTransactionId.
  destruct (List.find _ _) as [found|] eqn:Hfind.
  - apply find_some in Hfind. destruct Hfind as [Hf Hid]. apply String.eqb_eq in Hid.
    f_equal. apply (exclusive_same_link st); auto.
  - apply (find_none _ _ Hfind) in Hin. rewrite String.eqb_refl in Hin. discriminate.
Qed.

End ReEvaluation.

(** C10. Whatever the link store, the re-evaluation of a tenant deletes
    every link that shares its transaction id with one of the tenant's
    retracted automatic links, be it a link of another tenant or a manual
    one: in [sharedStore] the manual link of U to t1 goes with the automatic
    link of T to t1. In a store where each transaction has at most one link,
    the deleted links are the tenant's own retracted automatic links and no
    others. *)
Theorem reEvaluate_deletes_by_transaction_id :
  (forall tenant st retractedLink link,
      In retractedLink (getTenantTransactions st) ->
      tt_tenantId retractedLink = tenant_id tenant ->
      tt_manualOverride retractedLink = false ->
      retracts tenant (getTransactions st) retractedLink = true ->
      In link (getTenantTransactions st) ->
      tt_transactionId link = tt_transactionId retractedLink ->
      ~ In link (getTenantTransactions (snd (reEvaluateTenantMatches tenant st)))) /\
  getTenantTransactions
    (snd (reEvaluateTenantMatches (searchTenant "T" 1000 50 ["SMITH"]) sharedStore)) =
  [mkLink "U" "t2" true] /\
  (forall tenant st link,
      exclusive st ->
      In link (getTenantTransactions st) ->
      ~ In link (getTenantTransactions (snd (reEvaluateTenantMatches tenant st))) ->
      tt_tenantId link = tenant_id tenant /\
      tt_manualOverride link = false /\
      retracts tenant (getTransactions st) link = true).
Proof.
  split; [|split].
  - intros tenant st retractedLink link Hr Ht Hm Hret Hin Hid.
    apply reEvaluate_removed; [exact Hin|].
    exists retractedLink. split; [|auto]. apply In_retractedOf. auto.
  - reflexivity.
  - intros tenant st link Hex Hin Hgone.
    apply reEvaluate_removed in Hgone; [|exact Hin].
    destruct Hgone as (retractedLink & Hr & Hid).
    apply In_retractedOf in Hr. destruct Hr as (Hr & Hrest).
    rewrite (exclusive_same_link st link retractedLink Hex Hin Hr); auto.
Qed.

Lemma linkedToA_exclusive : exclusive linkedToA.
Proof.
  intros transactionId. unfold linksOf.
  etrans; [apply List.filter_length_le|]. simpl. lia.
Qed.

Lemma reEvaluate_deletes_by_transaction_id_witness :
  ~ In (mkLink "U" "t1" true)
       (getTenantTransactions
          (snd (reEvaluateTenantMatches (searchTenant "T" 1000 50 ["SMITH"]) sharedStore))) /\
  (tt_tenantId (mkLink "A" "t1" false) = "A" /\
   tt_manualOverride (mkLink "A" "t1" false) = false /\
   retracts (searchTenant "A" 1000 50 ["SMITH"]) [] (mkLink "A" "t1" false) = true).
Proof.
  split.
  - apply (proj1 reEvaluate_deletes_by_transaction_id
                 (searchTenant "T" 1000 50 ["SMITH"]) sharedStore
                 (mkLink "T" "t1" false) (mkLink "U" "t1" true));
      try reflexivity; simpl; auto.
  - apply (proj2 (proj2 reEvaluate_deletes_by_transaction_id)
                 (searchTenant "A" 1000 50 ["SMITH"]) linkedToA (mkLink "A" "t1" false)).
    + exact linkedToA_exclusive.
    + simpl. auto.
    + simpl. auto.
Defined.





(** ** Rejection memory *)

Section Rejection.
Variables tenantId transactionId : string.

Lemma isMatchRejected_In st :
  isMatchRejected tenantId transactionId st = true <->
  In {| rm_tenantId := tenantId; rm_transactionId := transactionId |}
     (getRejectedMatches st).
Proof.
  unfold isMatchRejected. rewrite existsb_exists. split.
  - intros ([t x] & Hin & H). unfold samePair in H. simpl in H.
    apply andb_true_iff in H. destruct H as [H1 H2].
    apply String.eqb_eq in H1, H2. subst. exact Hin.
  - intros H. eexists. split; [exact H|]. unfold samePair. simpl.
    rewrite !String.eqb_refl. reflexivity.
Qed.

Lemma rejected_filtered q st st' :
  getRejectedMatches st' = List.filter q (getRejectedMatches st) ->
  q {| rm_tenantId := tenantId; rm_transactionId := transactionId |} = true ->
  isMatchRejected tenantId transactionId st = true ->
  isMatchRejected tenantId transactionId st' = true.
Proof.
  rewrite !isMatchRejected_In. intros -> Hq Hin. apply filter_In. auto.
Qed.



Lemma addRejectedMatch_rejects st :
  isMatchRejected tenantId transactionId (addRejectedMatch tenantId transactionId st) = true.
Proof.
  unfold addRejectedMatch. destruct (List.find _ _) as [rm|] eqn:Hfind.
  - apply find_some in Hfind. unfold isMatchRejected. apply existsb_exists. eauto.
  - apply isMatchRejected_In. simpl. apply in_or_app. right. left. reflexivity.
Qed.



Lemma TenantsRoute_POST_rejected tenant now st :
  getRejectedMatches (snd (TenantsRoute.POST tenant now st)) = getRejectedMatches st.
Proof.
  unfold TenantsRoute.POST. set (tenant' := if Js.falsy _ then _ else _).
  destruct (negb _ && _); [|reflexivity].
  destruct (reEvaluateTenantMatches_spec tenant' (saveTenant tenant' st))
    as (_ & _ & (_ & _ & _ & Hrm & _)).
  destruct (reEvaluateTenantMatches tenant' (saveTenant tenant' st)) as [n st'].
  simpl in *. exact Hrm.
Qed.


Lemma match_rejected st :
  getRejectedMatches (snd (MatchRoute.POST st)) = getRejectedMatches st.
Proof.
  rewrite POST_matchRun. cbn [snd].
  destruct (matchRun_added st) as ((_ & _ & _ & Hrm & _) & _). exact Hrm.
Qed.



End Rejection.

(** In [matchedStore] the deposit t1 satisfies the rule of T: were the link
    dropped without a rejection, the next run would link them again. *)
Example still_satisfies_rule :
  getTenantTransactions matchedStore = [mkLink "T" "t1" false] /\
  getTenantTransactions (snd (MatchRoute.POST (removeTenantTransaction "t1" matchedStore))) =
  [mkLink "T" "t1" false].
Proof. vm_compute. split; reflexivity. Qed.




(** ** Keyed collections: save, then read *)

Section ReplaceOrPush.
Context {A K : Type} (key : A -> K) (eqK : K -> K -> bool).
Hypothesis eqK_spec : forall a b, eqK a b = true <-> a = b.

Lemma replaceOrPush_find (x : A) (l : list A) :
  List.find (fun y => eqK (key y) (key x)) (replaceOrPush (fun y => eqK (key y) (key x)) x l)
  = Some x.
Proof.
  assert (Hx : eqK (key x) (key x) = true) by (apply eqK_spec; reflexivity).
  induction l as [|y l IH]; simpl.
  - rewrite Hx. reflexivity.
  - destruct (eqK (key y) (key x)) eqn:Hy; simpl.
    + rewrite Hx. reflexivity.
    + rewrite Hy. exact IH.
Qed.

Lemma replaceOrPush_find_other (x : A) (k : K) (l : list A) :
  k <> key x ->
  List.find (fun y => eqK (key y) k) (replaceOrPush (fun y => eqK (key y) (key x)) x l) =
  List.find (fun y => eqK (key y) k) l.
Proof.
  intros Hk.
  assert (Hx : eqK (key x) k = false).
  { destruct (eqK (key x) k) eqn:H; [|reflexivity]. apply eqK_spec in H. congruence. }
  induction l as [|y l IH]; simpl.
  - rewrite Hx. reflexivity.
  - destruct (eqK (key y) (key x)) eqn:Hy; simpl.
    + apply eqK_spec in Hy. rewrite Hy, Hx. reflexivity.
    + destruct (eqK (key y) k); [reflexivity|exact IH].
Qed.

Lemma replaceOrPush_keys (x : A) (l : list A) :
  List.map key (replaceOrPush (fun y => eqK (key y) (key x)) x l) =
  if existsb (fun y => eqK (key y) (key x)) l
  then List.map key l
  else List.map key l ++ [key x].
Proof.
  induction l as [|y l IH]; simpl; [reflexivity|].
  destruct (eqK (key y) (key x)) eqn:Hy; simpl.
  - apply eqK_spec in Hy. rewrite Hy. reflexivity.
  - rewrite IH. destruct (existsb _ l); reflexivity.
Qed.

Lemma replaceOrPush_twice (x : A) (l : list A) :
  replaceOrPush (fun y => eqK (key y) (key x)) x
                (replaceOrPush (fun y => eqK (key y) (key x)) x l) =
  replaceOrPush (fun y => eqK (key y) (key x)) x l.
Proof.
  assert (Hx : eqK (key x) (key x) = true) by (apply eqK_spec; reflexivity).
  induction l as [|y l IH]; simpl.
  - rewrite Hx. reflexivity.
  - destruct (eqK (key y) (key x)) eqn:Hy; simpl.
    + rewrite Hx. reflexivity.
    + rewrite Hy, IH. reflexivity.
Qed.

Lemma replaceOrPush_NoDup (x : A) (l : list A) :
  NoDup (List.map key l) ->
  NoDup (List.map key (replaceOrPush (fun y => eqK (key y) (key x)) x l)).
Proof.
  intros Hnd. rewrite replaceOrPush_keys.
  destruct (existsb _ l) eqn:Hex; [exact Hnd|].
  apply NoDup_app. split; [exact Hnd|]. split; [|apply NoDup_singleton].
  intros k Hk Hx. apply list_elem_of_In in Hk, Hx. destruct Hx as [<-|[]].
  apply in_map_iff in Hk. destruct Hk as (y & Hy & Hin).
  assert (existsb (fun y => eqK (key y) (key x)) l = true); [|congruence].
  apply existsb_exists. exists y. split; [exact Hin|]. apply eqK_spec, Hy.
Qed.

End ReplaceOrPush.

(** X1. Saving a tenant keeps the stored order, on which the priority of the
    auto-match depends: when the id is already stored the list of ids is
    unchanged (the first tenant with that id is replaced in place), otherwise
    the tenant goes to the end. The saved tenant is the one found under its
    id, saving it twice is saving it once, and no other file changes. *)
Theorem saveTenant_keeps_order tenant st :
  List.map tenant_id (getTenants (saveTenant tenant st)) =
  (if existsb (fun t => String.eqb (tenant_id t) (tenant_id tenant)) (getTenants st)
   then List.map tenant_id (getTenants st)
   else List.map tenant_id (getTenants st) ++ [tenant_id tenant]) /\
  List.find (fun t => String.eqb (tenant_id t) (tenant_id tenant))
            (getTenants (saveTenant tenant st)) = Some tenant /\
  saveTenant tenant (saveTenant tenant st) = saveTenant tenant st /\
  getTransactions (saveTenant tenant st) = getTransactions st /\
  getTenantTransactions (saveTenant tenant st) = getTenantTransactions st /\
  getRejectedMatches (saveTenant tenant st) = getRejectedMatches st.
Proof.
  split; [apply (replaceOrPush_keys tenant_id String.eqb String.eqb_eq)|].
  split; [apply (replaceOrPush_find tenant_id String.eqb String.eqb_eq)|].
  split; [|auto].
  unfold saveTenant, write_tenants, getTenants. simpl. f_equal.
  apply (replaceOrPush_twice tenant_id String.eqb String.eqb_eq).
Qed.

(** X2. The sync cursor read for an item is the one saved last for it;
    saving the cursor of another item does not change it, and each item
    keeps at most one cursor. *)
Theorem syncCursor_save_get cursor file :
  Cursors.getSyncCursor (Cursors.sc_itemId cursor) (Cursors.saveSyncCursor cursor file) =
  Some cursor /\
  (forall itemId, itemId <> Cursors.sc_itemId cursor ->
                  Cursors.getSyncCursor itemId (Cursors.saveSyncCursor cursor file) =
                  Cursors.getSyncCursor itemId file) /\
  (NoDup (List.map Cursors.sc_itemId file) ->
   NoDup (List.map Cursors.sc_itemId (Cursors.saveSyncCursor cursor file))).
Proof.
  split; [apply (replaceOrPush_find Cursors.sc_itemId String.eqb String.eqb_eq)|].
  split.
  - intros itemId Hne.
    apply (replaceOrPush_find_other Cursors.sc_itemId String.eqb String.eqb_eq). exact Hne.
  - apply (replaceOrPush_NoDup Cursors.sc_itemId String.eqb String.eqb_eq).
Qed.

Lemma syncCursor_save_get_witness :
  let c1 := {| Cursors.sc_itemId := "item1"; Cursors.sc_cursor := "a";
               Cursors.sc_lastSynced := "2024-01-01" |} in
  let c2 := {| Cursors.sc_itemId := "item2"; Cursors.sc_cursor := "b";
               Cursors.sc_lastSynced := "2024-01-02" |} in
  Cursors.getSyncCursor "item1" (Cursors.saveSyncCursor c2 [c1]) = Some c1 /\
  NoDup (List.map Cursors.sc_itemId (Cursors.saveSyncCursor c2 [c1])).
Proof.
  intros c1 c2. split.
  - apply (proj1 (proj2 (syncCursor_save_get c2 [c1])) "item1"). discriminate.
  - apply (proj2 (proj2 (syncCursor_save_get c2 [c1]))). simpl.
    apply NoDup_singleton.
Defined.

(** ** Storing transactions *)

Section StoringTransactions.

Lemma storedId_decide (l : list Transaction) (t : Transaction) :
  bool_decide (tx_transactionId t ∈
                 (list_to_set (List.map tx_transactionId l) : gset string)) = true <->
  In (tx_transactionId t) (List.map tx_transactionId l).
Proof. rewrite bool_decide_eq_true, elem_of_list_to_set, list_elem_of_In. tauto. Qed.

Lemma saveTransactions_added batch st :
  getTransactions (saveTransactions batch st) =
  getTransactions st ++
  List.filter (fun t => negb (bool_decide
                                (tx_transactionId t ∈
                                   (list_to_set (List.map tx_transactionId
                                                          (getTransactions st))
                                    : gset string)))) batch.
Proof. reflexivity. Qed.

Lemma NoDup_map_filter {A B} (f : A -> B) (p : A -> bool) (l : list A) :
  NoDup (List.map f l) -> NoDup (List.map f (List.filter p l)).
Proof.
  induction l as [|x l IH]; simpl; [auto|]. intros Hnd.
  apply NoDup_cons in Hnd. destruct Hnd as [Hx Hnd].
  destruct (p x); simpl; [|auto]. apply NoDup_cons. split; [|auto].
  intros Hin. apply Hx. apply list_elem_of_In in Hin. apply list_elem_of_In.
  apply in_map_iff in Hin. destruct Hin as (y & Hy & Hin). apply filter_In in Hin.
  apply in_map_iff. exists y. tauto.
Qed.

Lemma find_over_app {A} (p : A -> bool) (l1 l2 : list A) :
  List.find p (l1 ++ l2) =
  match List.find p l1 with
  | Some x => Some x
  | None => List.find p l2
  end.
Proof.
  induction l1 as [|x l1 IH]; simpl; [reflexivity|].
  destruct (p x); [reflexivity|exact IH].
Qed.

Lemma filter_none {A} (p : A -> bool) (l : list A) :
  (forall x, In x l -> p x = false) -> List.filter p l = [].
Proof.
  induction l as [|x l IH]; simpl; [reflexivity|]. intros H.
  rewrite (H x) by auto. apply IH. intros y Hy. apply H. auto.
Qed.

(** The lookup in the [Map] built from a batch returns the last
    transaction of the batch with that id. *)
Lemma newMap_lookup batch transactionId : forall m : gmap string Transaction,
  fold_left (fun m kv => <[fst kv := snd kv]> m)
            (List.map (fun t => (tx_transactionId t, t)) batch) m !! transactionId =
  match List.find (fun t => String.eqb (tx_transactionId t) transactionId) (rev batch) with
  | Some t => Some t
  | None => m !! transactionId
  end.
Proof.
  induction batch as [|t batch IH]; intros m; simpl; [reflexivity|].
  rewrite IH, find_over_app.
  destruct (List.find _ (rev batch)); [reflexivity|]. simpl.
  destruct (String.eqb_spec (tx_transactionId t) transactionId) as [->|Hne].
  - apply lookup_insert_eq.
  - apply lookup_insert_ne. exact Hne.
Qed.

End StoringTransactions.

(** X3. Saving a batch of transactions keeps the stored transactions as they
    are and in place, and appends, in batch order, the transactions of the
    batch whose id is not stored yet. Saving the same batch again changes
    nothing. When the stored ids are distinct and the ids of the batch are
    distinct, the ids stay distinct. *)
Theorem saveTransactions_appends_new batch st :
  (exists added,
      getTransactions (saveTransactions batch st) = getTransactions st ++ added /\
      forall t, In t added <->
                In t batch /\
                ~ In (tx_transactionId t) (List.map tx_transactionId (getTransactions st))) /\
  saveTransactions batch (saveTransactions batch st) = saveTransactions batch st /\
  (NoDup (List.map tx_transactionId (getTransactions st)) ->
   NoDup (List.map tx_transactionId batch) ->
   NoDup (List.map tx_transactionId (getTransactions (saveTransactions batch st)))).
Proof.
  split; [|split].
  - eexists. split; [apply saveTransactions_added|].
    intros t. rewrite filter_In, negb_true_iff, <- not_true_iff_false, storedId_decide.
    tauto.
  - unfold saveTransactions at 1. rewrite saveTransactions_added.
    set (new := List.filter _ batch).
    assert (Hnone : List.filter
                      (fun t => negb (bool_decide
                                        (tx_transactionId t ∈
                                           (list_to_set (List.map tx_transactionId
                                                           (getTransactions st ++ new))
                                            : gset string)))) batch = []).
    { apply filter_none. intros t Ht.
      apply negb_false_iff, storedId_decide. rewrite List.map_app. apply in_or_app.
      destruct (bool_decide (tx_transactionId t ∈
                               (list_to_set (List.map tx_transactionId (getTransactions st))
                                : gset string))) eqn:Hd.
      - left. apply storedId_decide, Hd.
      - right. apply in_map. apply filter_In. split; [exact Ht|]. rewrite Hd. reflexivity. }
    rewrite Hnone, app_nil_r. reflexivity.
  - intros Hstored Hbatch. rewrite saveTransactions_added, List.map_app.
    apply NoDup_app. split; [exact Hstored|]. split.
    + intros id Hold Hnew. apply list_elem_of_In in Hold, Hnew.
      apply in_map_iff in Hnew. destruct Hnew as (t & <- & Ht).
      apply filter_In in Ht. destruct Ht as [_ Ht].
      apply negb_true_iff, not_true_iff_false in Ht. apply Ht, storedId_decide, Hold.
    + apply NoDup_map_filter, Hbatch.
Qed.

Lemma saveTransactions_appends_new_witness :
  let batch := [bankLine "t1" (-1000) "SMITH"; bankLine "t9" 20 "COFFEE"] in
  NoDup (List.map tx_transactionId (getTransactions (saveTransactions batch smithStore))).
Proof.
  intros batch.
  apply (proj2 (proj2 (saveTransactions_appends_new batch smithStore))).
  - simpl. apply NoDup_singleton.
  - simpl. apply NoDup_cons. split; [|apply NoDup_singleton].
    intros H. apply list_elem_of_In in H. destruct H as [H|[]]. discriminate.
Defined.

(** X4. Updating transactions from a batch keeps the number, the ids and the
    order of the stored transactions: a stored transaction whose id occurs
    in the batch is replaced by the last transaction of the batch with that
    id, and any other stored transaction is kept; nothing is added for ids
    that are not stored. *)
Theorem updateTransactions_in_place batch st :
  getTransactions (updateTransactions batch st) =
  List.map (fun t =>
              match List.find (fun u => String.eqb (tx_transactionId u) (tx_transactionId t))
                              (rev batch) with
              | Some u => u
              | None => t
              end) (getTransactions st) /\
  List.map tx_transactionId (getTransactions (updateTransactions batch st)) =
  List.map tx_transactionId (getTransactions st) /\
  getTenantTransactions (updateTransactions batch st) = getTenantTransactions st.
Proof.
  assert (Heq : getTransactions (updateTransactions batch st) =
                List.map (fun t =>
                            match List.find (fun u => String.eqb (tx_transactionId u)
                                                                 (tx_transactionId t))
                                            (rev batch) with
                            | Some u => u
                            | None => t
                            end) (getTransactions st)).
  { unfold updateTransactions, newMap. simpl. apply map_ext. intros t.
    rewrite newMap_lookup, lookup_empty.
    destruct (List.find _ (rev batch)); reflexivity. }
  split; [exact Heq|]. split; [|reflexivity].
  rewrite Heq, List.map_map. apply map_ext. intros t.
  destruct (List.find _ (rev batch)) as [u|] eqn:Hfind; [|reflexivity].
  apply find_some in Hfind. destruct Hfind as [_ Hid]. apply String.eqb_eq, Hid.
Qed.

(** ** Rejected matches as a set *)

Section RejectedSet.

Lemma samePair_pairOf tenantId transactionId rm :
  samePair tenantId transactionId rm = true <-> pairOf rm = (tenantId, transactionId).
Proof.
  unfold samePair, pairOf. rewrite andb_true_iff, !String.eqb_eq. split.
  - intros [-> ->]. reflexivity.
  - intros H. injection H. auto.
Qed.

Lemma isMatchRejected_pairOf tenantId transactionId st :
  isMatchRejected tenantId transactionId st = true <->
  In (tenantId, transactionId) (List.map pairOf (getRejectedMatches st)).
Proof.
  unfold isMatchRejected. rewrite existsb_exists, in_map_iff. split.
  - intros (rm & Hin & H). exists rm. split; [apply samePair_pairOf, H|exact Hin].
  - intros (rm & H & Hin). exists rm. split; [exact Hin|apply samePair_pairOf, H].
Qed.

Lemma addRejectedMatch_NoDup tenantId transactionId st :
  NoDup (List.map pairOf (getRejectedMatches st)) ->
  NoDup (List.map pairOf (getRejectedMatches (addRejectedMatch tenantId transactionId st))).
Proof.
  intros Hnd. unfold addRejectedMatch.
  destruct (List.find _ _) eqn:Hfind; [exact Hnd|]. simpl.
  rewrite List.map_app. apply NoDup_app. split; [exact Hnd|].
  split; [|apply NoDup_singleton].
  intros pair Hold Hnew. apply list_elem_of_In in Hold, Hnew. destruct Hnew as [<-|[]].
  apply in_map_iff in Hold. destruct Hold as (rm & Hrm & Hin).
  apply (find_none _ _ Hfind) in Hin.
  assert (samePair tenantId transactionId rm = true) by (apply samePair_pairOf, Hrm).
  congruence.
Qed.

Lemma rejected_NoDup_filtered q st st' :
  getRejectedMatches st' = List.filter q (getRejectedMatches st) ->
  NoDup (List.map pairOf (getRejectedMatches st)) ->
  NoDup (List.map pairOf (getRejectedMatches st')).
Proof. intros ->. apply NoDup_map_filter. Qed.

Lemma step_rejected_NoDup o st :
  NoDup (List.map pairOf (getRejectedMatches st)) ->
  NoDup (List.map pairOf (getRejectedMatches (Ops.step o st))).
Proof.
  intros H. destruct o; cbn [Ops.step].
  - rewrite match_rejected. exact H.
  - unfold TenantTransactionsRoute.POST. destruct (_ || _); simpl; [exact H|].
    eapply rejected_NoDup_filtered; [|exact H].
    unfold addTenantTransaction. destruct (List.find _ _); reflexivity.
  - unfold TenantTransactionsRoute.DELETE. destruct (Js.falsy _); simpl; [exact H|].
    destruct (getTenantTransactionByTransactionId _ _) as [assignment|]; [|exact H].
    apply (addRejectedMatch_NoDup (tt_tenantId assignment) transactionId st H).
  - rewrite TenantsRoute_POST_rejected. exact H.
  - eapply rejected_NoDup_filtered; [reflexivity|exact H].
  - eapply rejected_NoDup_filtered; [reflexivity|exact H].
  - unfold CsvUploadsRoute.DELETE. destruct (Js.falsy _); simpl; [exact H|].
    unfold deleteCsvUpload. destruct (List.find _ _); simpl; [|exact H].
    apply NoDup_map_filter, H.
  - exact H.
  - exact H.
  - exact H.
  - exact H.
  - exact H.
Qed.

Lemma filter_all {A} (p : A -> bool) (l : list A) :
  (forall x, In x l -> p x = true) -> List.filter p l = l.
Proof.
  induction l as [|x l IH]; simpl; [reflexivity|]. intros H.
  rewrite (H x) by auto. f_equal. apply IH. intros y Hy. apply H. auto.
Qed.

Lemma write_rejected_same st : write_rejected_matches (getRejectedMatches st) st = st.
Proof. destruct st. reflexivity. Qed.

Lemma write_links_same st : write_tenant_transactions (getTenantTransactions st) st = st.
Proof. destruct st. reflexivity. Qed.

End RejectedSet.

(** X5. Rejected matches have set semantics: in every state reached from the
    empty store by the operations, no (tenant, transaction) pair is recorded
    twice. *)
Theorem rejected_matches_distinct (ops : list Ops.Op) :
  NoDup (List.map pairOf (getRejectedMatches (Ops.run ops emptyStore))).
Proof.
  assert (H : forall ops st,
             NoDup (List.map pairOf (getRejectedMatches st)) ->
             NoDup (List.map pairOf (getRejectedMatches (Ops.run ops st)))).
  { clear ops. induction ops as [|o ops IH]; intros st Hst; simpl; [exact Hst|].
    apply IH, step_rejected_NoDup, Hst. }
  apply H. simpl. apply NoDup_nil. exact I.
Qed.

(** X6. Rejecting a pair makes it rejected and is idempotent; removing the
    rejection makes the pair not rejected; neither changes whether any other
    pair is rejected; and rejecting a pair that was not rejected, then
    removing the rejection, gives the store back. *)
Theorem rejection_memory tenantId transactionId st :
  isMatchRejected tenantId transactionId (addRejectedMatch tenantId transactionId st) = true /\
  addRejectedMatch tenantId transactionId (addRejectedMatch tenantId transactionId st) =
  addRejectedMatch tenantId transactionId st /\
  isMatchRejected tenantId transactionId
                  (removeRejectedMatch tenantId transactionId st) = false /\
  (forall otherTenant otherTransaction,
      (otherTenant, otherTransaction) <> (tenantId, transactionId) ->
      isMatchRejected otherTenant otherTransaction
                      (addRejectedMatch tenantId transactionId st) =
      isMatchRejected otherTenant otherTransaction st /\
      isMatchRejected otherTenant otherTransaction
                      (removeRejectedMatch tenantId transactionId st) =
      isMatchRejected otherTenant otherTransaction st) /\
  (isMatchRejected tenantId transactionId st = false ->
   removeRejectedMatch tenantId transactionId
                       (addRejectedMatch tenantId transactionId st) = st).
Proof.
  split; [apply addRejectedMatch_rejects|]. split.
  { pose proof (addRejectedMatch_rejects tenantId transactionId st) as H.
    unfold isMatchRejected in H. apply existsb_exists in H. destruct H as (rm & Hin & Hrm).
    unfold addRejectedMatch at 1.
    destruct (List.find _ _) eqn:Hfind; [reflexivity|].
    apply (find_none _ _ Hfind) in Hin. congruence. }
  split; [unfold isMatchRejected; simpl; apply existsb_filter_negb|]. split.
  - intros otherTenant otherTransaction Hne.
    assert (Hnew : samePair otherTenant otherTransaction
                     {| rm_tenantId := tenantId; rm_transactionId := transactionId |} = false).
    { apply not_true_iff_false. intros H. apply samePair_pairOf in H.
      apply Hne. symmetry. exact H. }
    split.
    + unfold addRejectedMatch. destruct (List.find _ _); [reflexivity|].
      unfold isMatchRejected. simpl. rewrite existsb_app. simpl.
      rewrite Hnew, !orb_false_r. reflexivity.
    + unfold isMatchRejected, removeRejectedMatch, getRejectedMatches. simpl.
      induction (rejected_matches_json st) as [|rm l IH]; simpl; [reflexivity|].
      destruct (samePair tenantId transactionId rm) eqn:Hrm; simpl.
      * rewrite IH.
        destruct (samePair otherTenant otherTransaction rm) eqn:Ho; [|reflexivity].
        exfalso. apply Hne. apply samePair_pairOf in Hrm, Ho. congruence.
      * rewrite IH. reflexivity.
  - intros Hnot. unfold isMatchRejected in Hnot.
    assert (Hall : forall rm, In rm (getRejectedMatches st) ->
                              negb (samePair tenantId transactionId rm) = true).
    { intros rm Hin. apply negb_true_iff.
      destruct (samePair tenantId transactionId rm) eqn:Hrm; [|reflexivity].
      assert (existsb (samePair tenantId transactionId) (getRejectedMatches st) = true);
        [|congruence].
      apply existsb_exists. eauto. }
    unfold addRejectedMatch.
    destruct (List.find _ _) as [rm|] eqn:Hfind.
    + apply find_some in Hfind. destruct Hfind as [Hin Hrm].
      specialize (Hall rm Hin). rewrite Hrm in Hall. discriminate.
    + unfold removeRejectedMatch. simpl. rewrite List.filter_app. simpl.
      unfold samePair at 2. simpl. rewrite !String.eqb_refl. simpl.
      rewrite app_nil_r, (filter_all _ _ Hall). destruct st. reflexivity.
Qed.

Lemma rejection_memory_witness :
  isMatchRejected "B" "t1" (addRejectedMatch "A" "t1" linkedToA) =
  isMatchRejected "B" "t1" linkedToA /\
  removeRejectedMatch "A" "t1" (addRejectedMatch "A" "t1" linkedToA) = linkedToA.
Proof.
  split.
  - apply (proj1 (proj2 (proj2 (proj2 (rejection_memory "A" "t1" linkedToA)))) "B" "t1").
    discriminate.
  - apply (proj2 (proj2 (proj2 (proj2 (rejection_memory "A" "t1" linkedToA))))).
    reflexivity.
Defined.

(** ** Unassigning *)

Lemma filter_filter_other (l : list TenantTransaction) (removed other : string) :
  other <> removed ->
  List.filter (fun tt => String.eqb (tt_transactionId tt) other)
              (List.filter (fun tt => negb (String.eqb (tt_transactionId tt) removed)) l) =
  List.filter (fun tt => String.eqb (tt_transactionId tt) other) l.
Proof.
  intros Hne. induction l as [|x l IH]; simpl; [reflexivity|].
  destruct (String.eqb_spec (tt_transactionId x) removed) as [Hx|Hx]; simpl.
  - rewrite IH. destruct (String.eqb_spec (tt_transactionId x) other); [congruence|reflexivity].
  - rewrite IH. reflexivity.
Qed.

(** X7. An unassign with an empty transaction id is refused and changes
    nothing. Otherwise it succeeds; afterwards no link references the
    transaction, the links of every other transaction are what they were,
    and tenants and transactions are untouched. When the transaction had no
    link, the whole store is unchanged: no rejection is recorded. *)
Theorem unassign_effect transactionId st :
  (transactionId = "" ->
   TenantTransactionsRoute.DELETE transactionId st = (ErrorStatus 400, st)) /\
  (transactionId <> "" ->
   let st' := snd (TenantTransactionsRoute.DELETE transactionId st) in
   fst (TenantTransactionsRoute.DELETE transactionId st) = Json tt /\
   linksOf transactionId st' = [] /\
   (forall other, other <> transactionId -> linksOf other st' = linksOf other st) /\
   getTenants st' = getTenants st /\
   getTransactions st' = getTransactions st /\
   (getTenantTransactionByTransactionId transactionId st = None -> st' = st)).
Proof.
  split; [intros ->; reflexivity|].
  intros Hx. unfold TenantTransactionsRoute.DELETE. rewrite (falsy_false _ Hx). cbn [fst snd].
  split; [reflexivity|].
  set (st1 := match getTenantTransactionByTransactionId transactionId st with
              | Some assignment => addRejectedMatch (tt_tenantId assignment) transactionId st
              | None => st
              end).
  assert (Hlinks : getTenantTransactions st1 = getTenantTransactions st).
  { subst st1. destruct (getTenantTransactionByTransactionId _ _);
      [apply addRejectedMatch_links|reflexivity]. }
  split.
  { unfold linksOf, removeTenantTransaction. simpl. apply filter_none.
    intros link Hin. apply filter_In in Hin. destruct Hin as [_ Hin].
    apply negb_true_iff in Hin. exact Hin. }
  split.
  { intros other Hne. unfold linksOf, removeTenantTransaction. simpl.
    fold (getTenantTransactions st1). rewrite Hlinks. apply filter_filter_other, Hne. }
  split.
  { subst st1. destruct (getTenantTransactionByTransactionId _ _); [|reflexivity].
    unfold addRejectedMatch. destruct (List.find _ _); reflexivity. }
  split.
  { subst st1. destruct (getTenantTransactionByTransactionId _ _); [|reflexivity].
    unfold addRejectedMatch. destruct (List.find _ _); reflexivity. }
  intros Hnone. subst st1. rewrite Hnone. unfold removeTenantTransaction.
  rewrite filter_all; [apply write_links_same|].
  intros link Hin. unfold getTenantTransactionByTransactionId in Hnone.
  rewrite (find_none _ _ Hnone link Hin). reflexivity.
Qed.

Lemma unassign_effect_witness :
  linksOf "t1" (snd (TenantTransactionsRoute.DELETE "t1" sharedStore)) = [] /\
  linksOf "t2" (snd (TenantTransactionsRoute.DELETE "t1" sharedStore)) =
  [mkLink "U" "t2" true] /\
  snd (TenantTransactionsRoute.DELETE "t7" sharedStore) = sharedStore.
Proof.
  destruct (proj2 (unassign_effect "t1" sharedStore) ltac:(discriminate))
    as (_ & Hgone & Hother & _).
  split; [exact Hgone|]. split.
  - rewrite (Hother "t2") by discriminate. reflexivity.
  - apply (proj2 (unassign_effect "t7" sharedStore) ltac:(discriminate)). reflexivity.
Defined.

(** X8. Moving a transaction goes through an unassign and a manual assign:
    from a store where the transaction is linked to one tenant, unassigning
    it and then assigning it to a tenant (the same or another) leaves exactly
    the other links, in their order, followed by the manual link to the new
    tenant, which is not rejected for the transaction. When the new tenant
    differs from the old one, the old tenant stays rejected for the
    transaction. *)
Theorem unassign_then_assign oldLink newTenant transactionId st :
  transactionId <> "" -> newTenant <> "" ->
  getTenantTransactionByTransactionId transactionId st = Some oldLink ->
  let st' := snd (TenantTransactionsRoute.POST newTenant transactionId
                    (snd (TenantTransactionsRoute.DELETE transactionId st))) in
  getTenantTransactions st' =
  List.filter (fun tt => negb (String.eqb (tt_transactionId tt) transactionId))
              (getTenantTransactions st) ++ [mkLink newTenant transactionId true] /\
  isMatchRejected newTenant transactionId st' = false /\
  (tt_tenantId oldLink <> newTenant ->
   isMatchRejected (tt_tenantId oldLink) transactionId st' = true).
Proof.
  intros Hx Ht Hfind st'. subst st'.
  unfold TenantTransactionsRoute.DELETE. rewrite (falsy_false _ Hx), Hfind. cbn [snd].
  set (st1 := removeTenantTransaction transactionId
                (addRejectedMatch (tt_tenantId oldLink) transactionId st)).
  assert (Hlinks1 : getTenantTransactions st1 =
                    List.filter (fun tt => negb (String.eqb (tt_transactionId tt) transactionId))
                                (getTenantTransactions st)).
  { subst st1. unfold removeTenantTransaction. simpl.
    fold (getTenantTransactions (addRejectedMatch (tt_tenantId oldLink) transactionId st)).
    rewrite addRejectedMatch_links. reflexivity. }
  assert (Hfree : List.find (fun tt => String.eqb (tt_transactionId tt) transactionId)
                            (getTenantTransactions st1) = None).
  { apply find_none_iff. rewrite Hlinks1. intros link Hin. apply filter_In in Hin.
    destruct Hin as [_ Hin]. apply negb_true_iff in Hin. exact Hin. }
  unfold TenantTransactionsRoute.POST. rewrite (falsy_false _ Hx), (falsy_false _ Ht).
  cbn [orb snd].
  assert (Hadd : addTenantTransaction newTenant transactionId true
                   (removeRejectedMatch newTenant transactionId st1) =
                 write_tenant_transactions
                   (getTenantTransactions st1 ++ [mkLink newTenant transactionId true])
                   (removeRejectedMatch newTenant transactionId st1)).
  { unfold addTenantTransaction.
    change (getTenantTransactions (removeRejectedMatch newTenant transactionId st1))
      with (getTenantTransactions st1).
    rewrite Hfree. reflexivity. }
  rewrite Hadd. split; [simpl; rewrite <- Hlinks1; reflexivity|]. split.
  - unfold isMatchRejected. simpl. apply existsb_filter_negb.
  - intros Hne.
    apply (rejected_filtered (tt_tenantId oldLink) transactionId
             (fun rm => negb (samePair newTenant transactionId rm))
             (addRejectedMatch (tt_tenantId oldLink) transactionId st)).
    + reflexivity.
    + unfold samePair. simpl. apply negb_true_iff, andb_false_iff. left.
      apply String.eqb_neq, Hne.
    + apply addRejectedMatch_rejects.
Qed.

Lemma unassign_then_assign_witness :
  let st' := snd (TenantTransactionsRoute.POST "B" "t1"
                    (snd (TenantTransactionsRoute.DELETE "t1" linkedToA))) in
  getTenantTransactions st' = [mkLink "B" "t1" true] /\
  isMatchRejected "B" "t1" st' = false /\
  isMatchRejected "A" "t1" st' = true.
Proof.
  destruct (unassign_then_assign (mkLink "A" "t1" false) "B" "t1" linkedToA
              ltac:(discriminate) ltac:(discriminate) eq_refl) as (H1 & H2 & H3).
  split; [exact H1|]. split; [exact H2|]. apply H3. discriminate.
Defined.

(** ** Deletions and their cascades *)

Section Cascades.

Lemma In_idSet (ids : list string) (x : string) :
  bool_decide (x ∈ (list_to_set ids : gset string)) = true <-> In x ids.
Proof. rewrite bool_decide_eq_true, elem_of_list_to_set, list_elem_of_In. tauto. Qed.

Lemma not_In_idSet (ids : list string) (x : string) :
  negb (bool_decide (x ∈ (list_to_set ids : gset string))) = true <-> ~ In x ids.
Proof. rewrite negb_true_iff, <- not_true_iff_false, In_idSet. tauto. Qed.

(** A cascade over ids that covers no kept transaction keeps the links
    resolved. *)
Lemma cascade_resolves ids kept st :
  (forall t, In t (getTransactions st) -> ~ In (tx_transactionId t) ids -> In t kept) ->
  linksResolve st ->
  linksResolve (cascade (list_to_set ids) (write_transactions kept st)).
Proof.
  intros Hkept Hres link Hin. simpl in Hin. apply filter_In in Hin.
  destruct Hin as [Hin Hid]. apply not_In_idSet in Hid.
  destruct (Hres link Hin) as (t & Ht & Heq). exists t. split; [|exact Heq].
  simpl. apply Hkept; [exact Ht|]. rewrite Heq. exact Hid.
Qed.

End Cascades.

(** X9. Deleting a tenant removes the tenants with that id, the links to it
    and the rejections recorded for it, and nothing else: every other
    tenant, link and rejection stays, and the transactions are untouched. An
    auto-match run that follows creates no link to the deleted id. *)
Theorem tenant_delete_cascade id st :
  let st' := snd (TenantsRoute.DELETE id st) in
  (forall tenant, In tenant (getTenants st') <->
                  In tenant (getTenants st) /\ tenant_id tenant <> id) /\
  (forall link, In link (getTenantTransactions st') <->
                In link (getTenantTransactions st) /\ tt_tenantId link <> id) /\
  (forall rm, In rm (getRejectedMatches st') <->
              In rm (getRejectedMatches st) /\ rm_tenantId rm <> id) /\
  getTransactions st' = getTransactions st /\
  (forall link, In link (getTenantTransactions (snd (MatchRoute.POST st'))) ->
                tt_tenantId link <> id).
Proof.
  intros st'.
  assert (Htenants : forall tenant, In tenant (getTenants st') <->
                                    In tenant (getTenants st) /\ tenant_id tenant <> id).
  { intros tenant. subst st'. simpl. rewrite filter_In, negb_true_iff, String.eqb_neq. tauto. }
  assert (Hlinks : forall link, In link (getTenantTransactions st') <->
                                In link (getTenantTransactions st) /\ tt_tenantId link <> id).
  { intros link. subst st'. simpl. rewrite filter_In, negb_true_iff, String.eqb_neq. tauto. }
  split; [exact Htenants|]. split; [exact Hlinks|]. split.
  { intros rm. subst st'. simpl. rewrite filter_In, negb_true_iff, String.eqb_neq. tauto. }
  split; [reflexivity|].
  intros link Hin. rewrite POST_matchRun in Hin. cbn [snd] in Hin.
  destruct (matchRun_added st') as (_ & added & Hadded & Hall).
  rewrite Hadded in Hin. apply in_app_or in Hin. destruct Hin as [Hold|Hnew].
  - apply Hlinks, Hold.
  - rewrite List.Forall_forall in Hall.
    destruct (Hall link Hnew) as (deposit & tenant & Hfind & ->).
    apply find_some in Hfind. destruct Hfind as [Ht _]. simpl. apply Htenants, Ht.
Qed.

(** X10. Deleting an account removes the transactions of that item and
    reports their number; a link or a rejection goes exactly when its
    transaction id is the id of a removed transaction; the tenants are
    untouched and no account with that id is left. When every link
    referenced a stored transaction before, every link does so after. *)
Theorem account_delete_cascade id st :
  let st' := snd (AccountsRoute.DELETE id st) in
  let removedIds :=
    List.map tx_transactionId
             (List.filter (fun t => String.eqb (tx_itemId t) id) (getTransactions st)) in
  fst (AccountsRoute.DELETE id st) = Json (length removedIds) /\
  (forall t, In t (getTransactions st') <-> In t (getTransactions st) /\ tx_itemId t <> id) /\
  (forall link, In link (getTenantTransactions st') <->
                In link (getTenantTransactions st) /\
                ~ In (tt_transactionId link) removedIds) /\
  (forall rm, In rm (getRejectedMatches st') <->
              In rm (getRejectedMatches st) /\ ~ In (rm_transactionId rm) removedIds) /\
  getTenants st' = getTenants st /\
  (forall account, In account (getAccounts st') -> account_id account <> id) /\
  (linksResolve st -> linksResolve st').
Proof.
  intros st' removedIds. split; [subst removedIds; simpl; rewrite length_map; reflexivity|].
  split.
  { intros t. subst st'. simpl. rewrite filter_In, negb_true_iff, String.eqb_neq. tauto. }
  split.
  { intros link. subst st'. simpl. rewrite filter_In, not_In_idSet. tauto. }
  split.
  { intros rm. subst st'. simpl. rewrite filter_In, not_In_idSet. tauto. }
  split; [reflexivity|]. split.
  { intros account Hin. subst st'. simpl in Hin. apply filter_In in Hin.
    destruct Hin as [_ Hin]. apply negb_true_iff, String.eqb_neq in Hin. exact Hin. }
  intros Hres link Hin.
  apply (cascade_resolves removedIds
           (List.filter (fun t => negb (String.eqb (tx_itemId t) id)) (getTransactions st))
           st); [|exact Hres|exact Hin].
  intros t Ht Hid. apply filter_In. split; [exact Ht|].
  apply negb_true_iff, String.eqb_neq. intros Hitem. apply Hid.
  subst removedIds. apply in_map. apply filter_In. split; [exact Ht|].
  apply String.eqb_eq, Hitem.
Qed.

Lemma account_delete_cascade_witness :
  linksResolve (snd (AccountsRoute.DELETE "item" matchedStore)).
Proof.
  apply (proj2 (proj2 (proj2 (proj2 (proj2 (proj2
           (account_delete_cascade "item" matchedStore))))))).
  intros link Hin. exists (bankLine "t1" (-1000) "SMITH").
  destruct Hin as [<-|[]]. split; [left|]; reflexivity.
Defined.

(** X11. Deleting a CSV upload: an empty id is refused (400) and an id that
    no upload carries is not found (404), the store being unchanged in both
    cases. Otherwise the first upload with that id is taken; no upload with
    the id is left, the transactions it lists are removed together with the
    links and rejections that mention them, the number of listed ids is
    reported, and links that referenced stored transactions still do. *)
Theorem csv_upload_delete uploadId st :
  (uploadId = "" -> CsvUploadsRoute.DELETE uploadId st = (ErrorStatus 400, st)) /\
  (uploadId <> "" ->
   List.find (fun u => String.eqb (upload_id u) uploadId) (getCsvUploads st) = None ->
   CsvUploadsRoute.DELETE uploadId st = (ErrorStatus 404, st)) /\
  (forall upload,
      uploadId <> "" ->
      List.find (fun u => String.eqb (upload_id u) uploadId) (getCsvUploads st) =
      Some upload ->
      let st' := snd (CsvUploadsRoute.DELETE uploadId st) in
      let removedIds := upload_transactionIds upload in
      fst (CsvUploadsRoute.DELETE uploadId st) = Json (length removedIds) /\
      (forall u, In u (getCsvUploads st') <->
                 In u (getCsvUploads st) /\ upload_id u <> uploadId) /\
      (forall t, In t (getTransactions st') <->
                 In t (getTransactions st) /\ ~ In (tx_transactionId t) removedIds) /\
      (forall link, In link (getTenantTransactions st') <->
                    In link (getTenantTransactions st) /\
                    ~ In (tt_transactionId link) removedIds) /\
      (forall rm, In rm (getRejectedMatches st') <->
                  In rm (getRejectedMatches st) /\ ~ In (rm_transactionId rm) removedIds) /\
      (linksResolve st -> linksResolve st')).
Proof.
  split; [intros ->; reflexivity|]. split.
  - intros Hid Hnone. unfold CsvUploadsRoute.DELETE, deleteCsvUpload.
    rewrite (falsy_false _ Hid), Hnone. reflexivity.
  - intros upload Hid Hfind st' removedIds.
    assert (Heq : CsvUploadsRoute.DELETE uploadId st =
                  (Json (length removedIds),
                   cascade (list_to_set removedIds)
                     (write_transactions
                        (List.filter (fun t => negb (bool_decide
                                                       (tx_transactionId t ∈
                                                          (list_to_set removedIds
                                                           : gset string))))
                                     (getTransactions st))
                        (write_csv_uploads
                           (List.filter (fun u => negb (String.eqb (upload_id u) uploadId))
                                        (getCsvUploads st)) st)))).
    { unfold CsvUploadsRoute.DELETE, deleteCsvUpload.
      rewrite (falsy_false _ Hid), Hfind. reflexivity. }
    subst st'. rewrite Heq. cbn [fst snd]. split; [reflexivity|]. split.
    { intros u. simpl. rewrite filter_In, negb_true_iff, String.eqb_neq. tauto. }
    split.
    { intros t. simpl. rewrite filter_In, not_In_idSet. tauto. }
    split.
    { intros link. simpl. rewrite filter_In, not_In_idSet. tauto. }
    split.
    { intros rm. simpl. rewrite filter_In, not_In_idSet. tauto. }
    intros Hres link Hin. simpl in Hin. apply filter_In in Hin.
    destruct Hin as [Hin Hkeep]. apply not_In_idSet in Hkeep.
    destruct (Hres link Hin) as (t & Ht & Htid). exists t. split; [|exact Htid].
    simpl. apply filter_In. split; [exact Ht|]. apply not_In_idSet.
    rewrite Htid. exact Hkeep.
Qed.

Lemma csv_upload_delete_witness :
  let upload := {| upload_id := "u1"; upload_accountId := "item";
                   upload_filename := "jan.csv"; upload_transactionIds := ["t1"] |} in
  let st := saveCsvUpload upload matchedStore in
  CsvUploadsRoute.DELETE "u2" st = (ErrorStatus 404, st) /\
  fst (CsvUploadsRoute.DELETE "u1" st) = Json 1 /\
  linksResolve (snd (CsvUploadsRoute.DELETE "u1" st)).
Proof.
  intros upload st. split; [|split].
  - apply (proj1 (proj2 (csv_upload_delete "u2" st))); [discriminate|reflexivity].
  - apply (proj2 (proj2 (csv_upload_delete "u1" st)) upload); [discriminate|reflexivity].
  - apply (proj2 (proj2 (csv_upload_delete "u1" st)) upload); [discriminate|reflexivity|].
    intros link Hin. exists (bankLine "t1" (-1000) "SMITH").
    destruct Hin as [<-|[]]. split; [left|]; reflexivity.
Defined.

(** ** What a run of the auto-match links *)





(** ** What a re-evaluation leaves *)


(** X15. Saving a tenant never changes transactions or rejected matches and
    never adds a link. When the request is not an edit (its id is empty, or
    no stored tenant has its id) it reports [removedCount = 0] and leaves the
    links as they are; a tenant without id gets the id [tenant-<now>]. *)
Theorem tenant_save_frame tenant now st :
  let st' := snd (TenantsRoute.POST tenant now st) in
  getTransactions st' = getTransactions st /\
  getRejectedMatches st' = getRejectedMatches st /\
  (forall link, In link (getTenantTransactions st') -> In link (getTenantTransactions st)) /\
  (existsb (fun t => String.eqb (tenant_id t) (tenant_id tenant)) (getTenants st) = false \/
   tenant_id tenant = "" ->
   getTenantTransactions st' = getTenantTransactions st /\
   exists saved,
     fst (TenantsRoute.POST tenant now st) =
     Json {| TenantsRoute.saved := saved; TenantsRoute.removedCount := 0 |} /\
     tenant_id saved = (if Js.falsy (tenant_id tenant)
                        then "tenant-" ++ pretty now else tenant_id tenant)%string).
Proof.
  intros st'. split.
  { subst st'. unfold TenantsRoute.POST. set (tenant' := if Js.falsy _ then _ else _).
    destruct (negb _ && _); [|reflexivity].
    destruct (reEvaluateTenantMatches_spec tenant' (saveTenant tenant' st))
      as (_ & _ & (_ & _ & Htx & _)).
    destruct (reEvaluateTenantMatches tenant' (saveTenant tenant' st)). exact Htx. }
  split; [apply TenantsRoute_POST_rejected|]. split.
  { intros link Hin. destruct (TenantsRoute_POST_links tenant now st) as [q Hq].
    fold st' in Hq. rewrite Hq in Hin. apply filter_In in Hin. apply Hin. }
  intros Hnew. subst st'. unfold TenantsRoute.POST.
  assert (Hedit : negb (Js.falsy (tenant_id tenant)) &&
                  existsb (fun t => String.eqb (tenant_id t) (tenant_id tenant))
                          (getTenants st) = false).
  { destruct Hnew as [->| ->]; [apply andb_false_r|reflexivity]. }
  cbv zeta. rewrite Hedit. cbn [fst snd]. split; [reflexivity|].
  eexists. split; [reflexivity|]. destruct (Js.falsy (tenant_id tenant)); reflexivity.
Qed.

Lemma tenant_save_frame_witness :
  getTenantTransactions (snd (TenantsRoute.POST (searchTenant "" 900 10 ["LEE"]) 1700 editStore)) =
  getTenantTransactions editStore /\
  exists saved,
    fst (TenantsRoute.POST (searchTenant "" 900 10 ["LEE"]) 1700 editStore) =
    Json {| TenantsRoute.saved := saved; TenantsRoute.removedCount := 0 |} /\
    tenant_id saved = "tenant-1700".
Proof.
  apply (proj2 (proj2 (proj2 (tenant_save_frame (searchTenant "" 900 10 ["LEE"])
                                                 1700 editStore)))).
  right. reflexivity.
Defined.

(** ** Invariants of the reachable stores *)

Section Reachable.

(** Where the links of the next store come from. *)
Lemma step_links_origin o st link :
  In link (getTenantTransactions (Ops.step o st)) ->
  In link (getTenantTransactions st) \/
  exists tenantId transactionId manualOverride,
    link = mkLink tenantId transactionId manualOverride.
Proof.
  intros Hin. destruct o; cbn [Ops.step] in Hin.
  - rewrite POST_matchRun in Hin. cbn [snd] in Hin.
    destruct (matchRun_added st) as (_ & added & Hadded & Hall).
    rewrite Hadded in Hin. apply in_app_or in Hin. destruct Hin as [Hold|Hnew]; [auto|].
    rewrite List.Forall_forall in Hall.
    destruct (Hall link Hnew) as (deposit & tenant & _ & ->). right. eauto.
  - unfold TenantTransactionsRoute.POST in Hin. destruct (_ || _); simpl in Hin; [auto|].
    rewrite addTenantTransaction_links in Hin.
    destruct (getTenantTransactionByTransactionId _ _); [auto|].
    apply in_app_or in Hin. destruct Hin as [Hold|[<-|[]]]; [auto|]. right. eauto.
  - unfold TenantTransactionsRoute.DELETE in Hin. destruct (Js.falsy _); simpl in Hin; [auto|].
    apply filter_In in Hin. destruct Hin as [Hin _]. left.
    destruct (getTenantTransactionByTransactionId _ _); [|exact Hin].
    fold (getTenantTransactions (addRejectedMatch (tt_tenantId t) transactionId st)) in Hin.
    rewrite addRejectedMatch_links in Hin. exact Hin.
  - destruct (TenantsRoute_POST_links tenant now st) as [q Hq].
    rewrite Hq in Hin. apply filter_In in Hin. left. apply Hin.
  - simpl in Hin. apply filter_In in Hin. left. apply Hin.
  - simpl in Hin. apply filter_In in Hin. left. apply Hin.
  - unfold CsvUploadsRoute.DELETE in Hin. destruct (Js.falsy _); simpl in Hin; [auto|].
    unfold deleteCsvUpload in Hin. destruct (List.find _ _); simpl in Hin; [|auto].
    apply filter_In in Hin. left. apply Hin.
  - auto.
  - auto.
  - auto.
  - auto.
  - auto.
Qed.

Lemma step_tenants o st :
  getTenants (Ops.step o st) = getTenants st \/
  (exists id, o = Ops.DeleteTenant id /\
              getTenants (Ops.step o st) =
              List.filter (fun t => negb (String.eqb (tenant_id t) id)) (getTenants st)) \/
  (exists tenant now saved,
      o = Ops.SaveTenant tenant now /\
      tenant_id saved <> "" /\
      getTenants (Ops.step o st) =
      replaceOrPush (fun t => String.eqb (tenant_id t) (tenant_id saved)) saved
                    (getTenants st)).
Proof.
  destruct o; cbn [Ops.step].
  - left. rewrite POST_matchRun. cbn [snd].
    destruct (matchRun_added st) as ((_ & Ht & _) & _). exact Ht.
  - left. unfold TenantTransactionsRoute.POST. destruct (_ || _); simpl; [reflexivity|].
    unfold addTenantTransaction. destruct (List.find _ _); reflexivity.
  - left. unfold TenantTransactionsRoute.DELETE. destruct (Js.falsy _); simpl; [reflexivity|].
    destruct (getTenantTransactionByTransactionId _ _); [|reflexivity].
    unfold addRejectedMatch. destruct (List.find _ _); reflexivity.
  - right. right.
    exists tenant, now,
      (if Js.falsy (tenant_id tenant)
       then TenantsRoute.withId ("tenant-" ++ pretty now) tenant else tenant).
    split; [reflexivity|]. split.
    + destruct (Js.falsy (tenant_id tenant)) eqn:Hf; [discriminate|].
      apply String.eqb_neq, Hf.
    + unfold TenantsRoute.POST. set (tenant' := if Js.falsy _ then _ else _).
      destruct (negb _ && _); [|reflexivity].
      destruct (reEvaluateTenantMatches_spec tenant' (saveTenant tenant' st))
        as (_ & _ & (_ & Ht & _)).
      destruct (reEvaluateTenantMatches tenant' (saveTenant tenant' st)). exact Ht.
  - right. left. eauto.
  - left. reflexivity.
  - left. unfold CsvUploadsRoute.DELETE. destruct (Js.falsy _); simpl; [reflexivity|].
    unfold deleteCsvUpload. destruct (List.find _ _); reflexivity.
  - left. reflexivity.
  - left. reflexivity.
  - left. reflexivity.
  - left. reflexivity.
  - left. reflexivity.
Qed.

End Reachable.

(** X16. In every state reached from the empty store, the id of each link is
    its tenant id, a dash and its transaction id: the id is determined by
    the pair, whichever operation created the link. *)
Theorem link_ids_derived (ops : list Ops.Op) link :
  In link (getTenantTransactions (Ops.run ops emptyStore)) ->
  tt_id link = (tt_tenantId link ++ "-" ++ tt_transactionId link)%string.
Proof.
  assert (H : forall ops st,
             (forall l, In l (getTenantTransactions st) ->
                        tt_id l = (tt_tenantId l ++ "-" ++ tt_transactionId l)%string) ->
             forall l, In l (getTenantTransactions (Ops.run ops st)) ->
                       tt_id l = (tt_tenantId l ++ "-" ++ tt_transactionId l)%string).
  { clear. induction ops as [|o ops IH]; intros st Hst; simpl; [exact Hst|].
    apply IH. intros l Hl. apply step_links_origin in Hl.
    destruct Hl as [Hold|(a & b & m & ->)]; [auto|reflexivity]. }
  apply H. intros l [].
Qed.

Lemma link_ids_derived_witness :
  tt_id (mkLink "T" "t1" false) = "T-t1".
Proof.
  apply (link_ids_derived [Ops.SaveTenant (searchTenant "T" 1000 50 ["SMITH"]) 0;
                           Ops.SaveTransactions [bankLine "t1" (-1000) "SMITH"];
                           Ops.RunAutoMatch] (mkLink "T" "t1" false)).
  left. reflexivity.
Defined.

(** X17. In every state reached from the empty store, the stored tenants
    have distinct ids and none has an empty id. *)
Theorem tenant_ids_distinct (ops : list Ops.Op) :
  NoDup (List.map tenant_id (getTenants (Ops.run ops emptyStore))) /\
  forall tenant, In tenant (getTenants (Ops.run ops emptyStore)) -> tenant_id tenant <> "".
Proof.
  assert (H : forall ops st,
             NoDup (List.map tenant_id (getTenants st)) /\
             (forall tenant, In tenant (getTenants st) -> tenant_id tenant <> "") ->
             NoDup (List.map tenant_id (getTenants (Ops.run ops st))) /\
             (forall tenant, In tenant (getTenants (Ops.run ops st)) ->
                             tenant_id tenant <> "")).
  { clear. induction ops as [|o ops IH]; intros st Hst; simpl; [exact Hst|].
    apply IH. destruct Hst as [Hnd Hne].
    destruct (step_tenants o st) as [->|[(id & _ & ->)|(tenant & now & saved & _ & Hid & ->)]].
    - auto.
    - split; [apply NoDup_map_filter, Hnd|].
      intros tenant Hin. apply filter_In in Hin. apply Hne, Hin.
    - split; [apply (replaceOrPush_NoDup tenant_id String.eqb String.eqb_eq), Hnd|].
      intros t Hin. clear Hnd.
      induction (getTenants st) as [|y l IHl]; simpl in Hin.
      + destruct Hin as [<-|[]]. exact Hid.
      + destruct (String.eqb (tenant_id y) (tenant_id saved)).
        * destruct Hin as [<-|Hin]; [exact Hid|]. apply Hne. right. exact Hin.
        * destruct Hin as [<-|Hin]; [apply Hne; left; reflexivity|].
          apply IHl; [|exact Hin]. intros t' Ht'. apply Hne. right. exact Ht'. }
  apply H. split; [apply NoDup_nil; exact I|intros tenant []].
Qed.

(** ** The rule: sign, case, blank terms and missing numbers *)

Section RuleFacts.

Lemma abs_opp x : PrimFloat.abs (- x)%float = PrimFloat.abs x.
Proof.
  rewrite <- (SF2Prim_Prim2SF (PrimFloat.abs (- x))), <- (SF2Prim_Prim2SF (PrimFloat.abs x)).
  rewrite !abs_spec, opp_spec. destruct (Prim2SF x); reflexivity.
Qed.

Lemma SFcompare_refl x : x <> S754_nan -> SFcompare x x = Some Eq.
Proof.
  destruct x as [s|s| |s m e]; simpl; try congruence; intros _; destruct s; try reflexivity;
    rewrite Z.compare_refl, Pos.compare_cont_refl; reflexivity.
Qed.

Lemma is_nan_spec x : PrimFloat.is_nan x = true -> Prim2SF x = S754_nan.
Proof.
  unfold PrimFloat.is_nan. rewrite FloatAxioms.eqb_spec. unfold SFeqb. intros H.
  destruct (Prim2SF x) eqn:Hx; try reflexivity;
    rewrite SFcompare_refl in H by discriminate; discriminate.
Qed.

Lemma leb_nan_l x y : Prim2SF x = S754_nan -> PrimFloat.leb x y = false.
Proof. intros H. rewrite FloatAxioms.leb_spec, H. reflexivity. Qed.

Lemma leb_nan_r x y : Prim2SF y = S754_nan -> PrimFloat.leb x y = false.
Proof. intros H. rewrite FloatAxioms.leb_spec, H. unfold SFleb. destruct (Prim2SF x); reflexivity. Qed.

Lemma sub_nan x y : Prim2SF x = S754_nan \/ Prim2SF y = S754_nan -> Prim2SF (x - y)%float = S754_nan.
Proof.
  intros H. rewrite sub_spec. unfold SF64sub, SFsub.
  destruct H as [-> | ->]; [reflexivity|]. destruct (Prim2SF x); reflexivity.
Qed.

Lemma add_nan x y : Prim2SF x = S754_nan \/ Prim2SF y = S754_nan -> Prim2SF (x + y)%float = S754_nan.
Proof.
  intros H. rewrite add_spec. unfold SF64add, SFadd.
  destruct H as [-> | ->]; [reflexivity|]. destruct (Prim2SF x); reflexivity.
Qed.

Lemma abs_nan x : Prim2SF x = S754_nan -> Prim2SF (PrimFloat.abs x) = S754_nan.
Proof. intros H. rewrite abs_spec, H. reflexivity. Qed.

Lemma isWhiteSpace_upperChar c : Js.isWhiteSpace (Js.upperChar c) = Js.isWhiteSpace c.
Proof. destruct c as [[] [] [] [] [] [] [] []]; reflexivity. Qed.

Lemma upperChar_idem c : Js.upperChar (Js.upperChar c) = Js.upperChar c.
Proof. destruct c as [[] [] [] [] [] [] [] []]; reflexivity. Qed.

Lemma toUpperCase_idem s : Js.toUpperCase (Js.toUpperCase s) = Js.toUpperCase s.
Proof. induction s as [|c s IH]; simpl; [reflexivity|]. rewrite upperChar_idem, IH. reflexivity. Qed.

Lemma toUpperCase_app s1 s2 :
  Js.toUpperCase (s1 ++ s2) = (Js.toUpperCase s1 ++ Js.toUpperCase s2)%string.
Proof. induction s1 as [|c s1 IH]; simpl; [reflexivity|]. rewrite IH. reflexivity. Qed.

Lemma blank_toUpperCase s : blank (Js.toUpperCase s) <-> blank s.
Proof.
  unfold blank. induction s as [|c s IH]; simpl; [tauto|]. split.
  - intros H x [<-|Hx].
    + rewrite <- isWhiteSpace_upperChar. apply H. auto.
    + apply (proj1 IH); [|exact Hx]. intros y Hy. apply H. auto.
  - intros H x [<-|Hx].
    + rewrite isWhiteSpace_upperChar. apply H. auto.
    + apply (proj2 IH); [|exact Hx]. intros y Hy. apply H. auto.
Qed.

Lemma trim_empty_toUpperCase s :
  String.eqb (Js.trim (Js.toUpperCase s)) "" = String.eqb (Js.trim s) "".
Proof.
  destruct (String.eqb_spec (Js.trim s) "") as [H|H].
  - apply String.eqb_eq, trim_empty, blank_toUpperCase, trim_empty, H.
  - apply String.eqb_neq. intros Hu. apply H, trim_empty, blank_toUpperCase, trim_empty, Hu.
Qed.

(** The search-term check depends on the terms through their upper-cased
    forms only. *)
Lemma termsMatch_upper searchTerms description :
  termsMatch searchTerms description =
  existsb (fun upper => negb (String.eqb (Js.trim upper) "") && Js.includes description upper)
          (List.map Js.toUpperCase searchTerms).
Proof.
  unfold termsMatch. induction searchTerms as [|term terms IH]; simpl; [reflexivity|].
  rewrite IH, trim_empty_toUpperCase. reflexivity.
Qed.

End RuleFacts.

(** X18. The rule looks at the absolute value of the amount only: a
    transaction and the same transaction with the opposite amount get the
    same answer from the match route and from the re-evaluation, in both
    match modes. *)
Theorem rule_ignores_sign tenant transaction description :
  MatchRoute.isMatch tenant (withAmount (- tx_amount transaction)%float transaction)
                     description =
  MatchRoute.isMatch tenant transaction description /\
  stillMatches tenant (withAmount (- tx_amount transaction)%float transaction) =
  stillMatches tenant transaction.
Proof.
  unfold MatchRoute.isMatch, MatchRoute.isMatchWith, stillMatches, stillMatchesWith.
  simpl. rewrite abs_opp. split; reflexivity.
Qed.

(** X19. Matching is case-insensitive. Two lists of search terms that agree
    once upper-cased give the same answer, and so do two transactions whose
    names and merchant names agree once upper-cased. *)
Theorem rule_case_insensitive tenant transaction :
  (forall searchTerms description,
      List.map Js.toUpperCase searchTerms =
      List.map Js.toUpperCase (tenant_searchTerms tenant) ->
      MatchRoute.isMatch (withSearchTerms searchTerms tenant) transaction description =
      MatchRoute.isMatch tenant transaction description) /\
  (forall name merchantName,
      Js.toUpperCase name = Js.toUpperCase (tx_name transaction) ->
      Js.toUpperCase (Js.orEmpty merchantName) =
      Js.toUpperCase (Js.orEmpty (tx_merchantName transaction)) ->
      stillMatches tenant (withNames name merchantName transaction) =
      stillMatches tenant transaction /\
      descriptionOf (withNames name merchantName transaction) = descriptionOf transaction).
Proof.
  split.
  - intros searchTerms description Hterms.
    unfold MatchRoute.isMatch, MatchRoute.isMatchWith. simpl.
    destruct (default searchTermsMode (tenant_matchMode tenant)); [|reflexivity].
    destruct (_ && _); [|reflexivity].
    fold (termsMatch searchTerms description).
    fold (termsMatch (tenant_searchTerms tenant) description).
    rewrite !termsMatch_upper, Hterms. reflexivity.
  - intros name merchantName Hname Hmerchant.
    assert (Hdesc : descriptionOf (withNames name merchantName transaction) =
                    descriptionOf transaction).
    { unfold descriptionOf. simpl. rewrite !toUpperCase_app, Hname, Hmerchant. reflexivity. }
    split; [|exact Hdesc].
    rewrite !stillMatches_isMatch, Hdesc. reflexivity.
Qed.

Lemma rule_case_insensitive_witness :
  MatchRoute.isMatch (withSearchTerms ["smith"] (searchTenant "T" 1000 50 ["SMITH"]))
                     (bankLine "t1" (-1000) "Zelle Smith") "ZELLE SMITH " =
  MatchRoute.isMatch (searchTenant "T" 1000 50 ["SMITH"])
                     (bankLine "t1" (-1000) "Zelle Smith") "ZELLE SMITH " /\
  stillMatches (searchTenant "T" 1000 50 ["SMITH"])
               (withNames "zelle smith" None (bankLine "t1" (-1000) "Zelle Smith")) =
  stillMatches (searchTenant "T" 1000 50 ["SMITH"]) (bankLine "t1" (-1000) "Zelle Smith").
Proof.
  split.
  - apply (proj1 (rule_case_insensitive (searchTenant "T" 1000 50 ["SMITH"])
                                        (bankLine "t1" (-1000) "Zelle Smith"))).
    reflexivity.
  - apply (proj2 (rule_case_insensitive (searchTenant "T" 1000 50 ["SMITH"])
                                        (bankLine "t1" (-1000) "Zelle Smith"))
                 "zelle smith" None); reflexivity.
Defined.

(** X20. A tenant in search-terms mode whose list of search terms holds
    blank terms only, or is empty, matches no transaction, whatever the
    amount; and a tenant in exact-amounts mode whose list of amounts is empty
    or missing matches none either. ([searchTerms] is a required field of
    [Tenant]: the list is always there.) *)
Theorem no_terms_no_match tenant transaction description :
  (tenant_matchMode tenant <> Some exactAmountsMode ->
   (forall term, In term (tenant_searchTerms tenant) -> blank term) ->
   MatchRoute.isMatch tenant transaction description = false) /\
  (tenant_matchMode tenant = Some exactAmountsMode ->
   default [] (tenant_exactAmounts tenant) = [] ->
   MatchRoute.isMatch tenant transaction description = false).
Proof.
  split.
  - intros Hmode Hblank. rewrite (isMatch_searchTerms _ _ _ Hmode). cbv zeta.
    apply andb_false_iff. right. apply not_true_iff_false. intros H.
    apply termsMatch_spec in H. destruct H as (term & Hin & Hnb & _). apply Hnb, Hblank, Hin.
  - intros Hmode Hnone. unfold MatchRoute.isMatch, MatchRoute.isMatchWith.
    rewrite Hmode. simpl. rewrite Hnone.
    reflexivity.
Qed.

Lemma no_terms_no_match_witness :
  MatchRoute.isMatch (searchTenant "T" 1000 50 [""; "  "])
                     (bankLine "t1" (-1000) "SMITH") "SMITH " = false /\
  MatchRoute.isMatch (exactTenant "T" []) (bankLine "t1" (-1000) "SMITH") "SMITH " = false.
Proof.
  split.
  - apply (proj1 (no_terms_no_match (searchTenant "T" 1000 50 [""; "  "])
                                    (bankLine "t1" (-1000) "SMITH") "SMITH ")).
    + discriminate.
    + intros term [<-|[<-|[]]]; apply trim_empty; reflexivity.
  - apply (proj2 (no_terms_no_match (exactTenant "T" [])
                                    (bankLine "t1" (-1000) "SMITH") "SMITH "));
      reflexivity.
Defined.

(** X21. Numbers that are not numbers never match. In search-terms mode a
    tenant whose expected rent or tolerance is NaN (the value arithmetic
    gives for a missing field) matches no transaction, and a transaction
    whose amount is NaN is matched by no tenant in either mode. *)
Theorem nan_never_matches tenant transaction description :
  (tenant_matchMode tenant <> Some exactAmountsMode ->
   PrimFloat.is_nan (tenant_expectedRent tenant) = true \/
   PrimFloat.is_nan (tenant_tolerance tenant) = true ->
   MatchRoute.isMatch tenant transaction description = false) /\
  (PrimFloat.is_nan (tx_amount transaction) = true ->
   MatchRoute.isMatch tenant transaction description = false).
Proof.
  split.
  - intros Hmode Hnan. rewrite (isMatch_searchTerms _ _ _ Hmode). cbv zeta.
    rewrite leb_nan_l; [reflexivity|].
    apply sub_nan. destruct Hnan as [H|H]; [left|right]; apply is_nan_spec, H.
  - intros Hnan. apply is_nan_spec, abs_nan in Hnan.
    unfold MatchRoute.isMatch, MatchRoute.isMatchWith.
    destruct (default searchTermsMode (tenant_matchMode tenant)).
    + rewrite (leb_nan_r _ _ Hnan). reflexivity.
    + induction (default [] (tenant_exactAmounts tenant)) as [|amount l IH];
        simpl; [reflexivity|].
      simpl in IH. rewrite IH, orb_false_r.
      rewrite FloatAxioms.ltb_spec, abs_spec, (sub_nan _ _ (or_introl Hnan)). reflexivity.
Qed.

Lemma nan_never_matches_witness :
  MatchRoute.isMatch (searchTenant "T" PrimFloat.nan 50 ["SMITH"])
                     (bankLine "t1" (-1000) "SMITH") "SMITH " = false /\
  MatchRoute.isMatch (exactTenant "T" [1000%float])
                     (bankLine "t1" PrimFloat.nan "SMITH") "SMITH " = false.
Proof.
  split.
  - apply (proj1 (nan_never_matches (searchTenant "T" PrimFloat.nan 50 ["SMITH"])
                                    (bankLine "t1" (-1000) "SMITH") "SMITH "));
      [discriminate|left; reflexivity].
  - apply (proj2 (nan_never_matches (exactTenant "T" [1000%float])
                                    (bankLine "t1" PrimFloat.nan "SMITH") "SMITH ")).
    reflexivity.
Defined.

(** ** Reading transactions: [api/data/transactions] *)

Section ReadingTransactions.

Lemma filter_map_format (l : list Transaction) :
  List.filter TransactionsRoute.isDeposit (List.map TransactionsRoute.format l) =
  List.map TransactionsRoute.format
           (List.filter (fun t => PrimFloat.ltb (tx_amount t) 0) l).
Proof.
  induction l as [|t l IH]; simpl; [reflexivity|].
  destruct (PrimFloat.ltb (tx_amount t) 0); simpl; rewrite IH; reflexivity.
Qed.

Lemma deposits_of_range startDate endDate st :
  Queries.getDepositsByDateRange startDate endDate st =
  List.filter (fun t => PrimFloat.ltb (tx_amount t) 0)
              (Queries.getTransactionsByDateRange startDate endDate st).
Proof.
  unfold Queries.getDepositsByDateRange, Queries.getTransactionsByDateRange.
  induction (getTransactions st) as [|t l IH]; simpl; [reflexivity|].
  destruct (PrimFloat.ltb (tx_amount t) 0) eqn:Hd; simpl.
  - destruct (_ && _); simpl; rewrite ?Hd, IH; reflexivity.
  - destruct (_ && _); simpl; rewrite ?Hd, IH; reflexivity.
Qed.

End ReadingTransactions.

(** X22. The transactions route. With [depositsOnly=true] it returns the
    deposits among what it returns without the parameter, and any other
    value of the parameter counts as absent. Unless both dates are given and
    non-empty, no date filter is applied. With both dates, the answer holds,
    in stored order, the stored transactions whose date lies between them as
    strings; each comes with its absolute amount and its deposit flag. *)
Theorem transactions_route_filters startDate endDate depositsOnly st :
  TransactionsRoute.GET startDate endDate (Some "true") st =
  List.filter TransactionsRoute.isDeposit (TransactionsRoute.GET startDate endDate None st) /\
  (forall v, v <> "true" ->
             TransactionsRoute.GET startDate endDate (Some v) st =
             TransactionsRoute.GET startDate endDate None st) /\
  (Js.truthy startDate && Js.truthy endDate = false ->
   TransactionsRoute.GET startDate endDate depositsOnly st =
   TransactionsRoute.GET None None depositsOnly st) /\
  (forall first last,
      first <> "" -> last <> "" ->
      TransactionsRoute.GET (Some first) (Some last) None st =
      List.map TransactionsRoute.format
               (List.filter (fun t => String.leb first (tx_date t) &&
                                      String.leb (tx_date t) last)
                            (getTransactions st))) /\
  (forall f, In f (TransactionsRoute.GET startDate endDate depositsOnly st) ->
             In (TransactionsRoute.transaction f) (getTransactions st) /\
             TransactionsRoute.displayAmount f =
             PrimFloat.abs (tx_amount (TransactionsRoute.transaction f)) /\
             TransactionsRoute.isDeposit f =
             PrimFloat.ltb (tx_amount (TransactionsRoute.transaction f)) 0).
Proof.
  split; [|split; [|split; [|split]]].
  - unfold TransactionsRoute.GET. simpl.
    destruct startDate as [s|], endDate as [e|]; try (symmetry; apply filter_map_format).
    destruct (negb (Js.falsy s) && negb (Js.falsy e)).
    + rewrite deposits_of_range. symmetry. apply filter_map_format.
    + symmetry. apply filter_map_format.
  - intros v Hv. unfold TransactionsRoute.GET.
    apply String.eqb_neq in Hv. rewrite Hv. reflexivity.
  - intros Hdates. unfold TransactionsRoute.GET.
    destruct startDate as [s|], endDate as [e|]; try reflexivity.
    simpl in Hdates. rewrite Hdates. reflexivity.
  - intros first last Hf Hl. unfold TransactionsRoute.GET.
    rewrite (falsy_false _ Hf), (falsy_false _ Hl). reflexivity.
  - intros f Hin. unfold TransactionsRoute.GET in Hin.
    apply in_map_iff in Hin. destruct Hin as (t & <- & Hin). simpl.
    split; [|split; reflexivity].
    destruct startDate as [s|], endDate as [e|];
      repeat match type of Hin with
             | In _ (if ?c then _ else _) => destruct c
             end;
      try (apply filter_In in Hin; apply Hin); try exact Hin.
Qed.

Lemma transactions_route_filters_witness :
  TransactionsRoute.GET (Some "2024-01-01") None (Some "TRUE") smithStore =
  TransactionsRoute.GET None None None smithStore /\
  TransactionsRoute.GET (Some "2024-02-01") (Some "2024-02-28") None smithStore = [].
Proof.
  destruct (transactions_route_filters (Some "2024-01-01") None None smithStore)
    as (_ & Hother & Hnodate & _).
  destruct (transactions_route_filters (Some "2024-02-01") (Some "2024-02-28") None smithStore)
    as (_ & _ & _ & Hrange & _).
  split.
  - rewrite (Hother "TRUE") by discriminate. apply Hnodate. reflexivity.
  - rewrite (Hrange "2024-02-01" "2024-02-28") by discriminate. reflexivity.
Defined.

(** ** Rent payments: [api/data/payments] *)

Section RentPayments.

Lemma eqPair_spec a b : eqPair a b = true <-> a = b.
Proof.
  destruct a as [a1 a2], b as [b1 b2]. unfold eqPair. simpl.
  rewrite andb_true_iff, !String.eqb_eq. split; [intros [-> ->]; reflexivity|].
  intros H. injection H. auto.
Qed.

Lemma saveRentPayment_replaceOrPush payment file :
  Payments.saveRentPayment payment file =
  replaceOrPush (fun p => eqPair (payKey p) (payKey payment)) payment file.
Proof. reflexivity. Qed.

Lemma replaceOrPush_In {A} (p : A -> bool) (x y : A) (l : list A) :
  In y (replaceOrPush p x l) -> y = x \/ In y l.
Proof.
  induction l as [|z l IH]; simpl.
  - intros [<-|[]]. auto.
  - destruct (p z); intros [<-|H]; auto.
    destruct (IH H); auto.
Qed.

End RentPayments.

(** X23. Rent payments are kept one per tenant and month. A posted payment
    is stored flagged as a manual override, with the id [tenantId-month]
    when it came without id; it replaces, in place, the stored payment of
    the same tenant and month, is the payment found under that key
    afterwards and is listed by the read of its month. In every file built
    by posts from the empty file the (tenant, month) keys are distinct and
    every payment is flagged manual with a non-empty id. A read with an
    empty month lists all payments. *)
Theorem rent_payments_keyed :
  (forall payment file,
      let saved := Payments.stamped payment in
      let file' := snd (Payments.POST payment file) in
      fst (Payments.POST payment file) = Json saved /\
      Payments.rp_manualOverride saved = Some true /\
      Payments.rp_id saved <> "" /\
      payKey saved = payKey payment /\
      List.find (fun p => eqPair (payKey p) (payKey payment)) file' = Some saved /\
      Payments.GET (Some "") file' = Json file' /\
      (Payments.rp_month payment <> "" ->
       exists listed, Payments.GET (Some (Payments.rp_month payment)) file' = Json listed /\
                      In saved listed) /\
      List.map payKey file' =
      (if existsb (fun p => eqPair (payKey p) (payKey payment)) file
       then List.map payKey file
       else List.map payKey file ++ [payKey payment])) /\
  (forall payments,
      NoDup (List.map payKey (Payments.posted payments)) /\
      forall p, In p (Payments.posted payments) ->
                Payments.rp_manualOverride p = Some true /\ Payments.rp_id p <> "").
Proof.
  split.
  - intros payment file saved file'.
    assert (Hfind : List.find (fun p => eqPair (payKey p) (payKey payment)) file' = Some saved).
    { apply (replaceOrPush_find payKey eqPair eqPair_spec saved file). }
    split; [reflexivity|]. split; [reflexivity|]. split.
    { subst saved. simpl. destruct (Js.falsy (Payments.rp_id payment)) eqn:Hf.
      - destruct (Payments.rp_tenantId payment); discriminate.
      - apply String.eqb_neq, Hf. }
    split; [reflexivity|]. split; [exact Hfind|]. split; [reflexivity|]. split.
    + intros Hmonth. unfold Payments.GET. rewrite (falsy_false _ Hmonth).
      eexists. split; [reflexivity|]. apply filter_In. apply find_some in Hfind.
      split; [apply Hfind|]. apply String.eqb_refl.
    + apply (replaceOrPush_keys payKey eqPair eqPair_spec saved file).
  - intros payments. unfold Payments.posted.
    assert (H : forall payments file,
               (NoDup (List.map payKey file) /\
                forall p, In p file ->
                          Payments.rp_manualOverride p = Some true /\ Payments.rp_id p <> "") ->
               NoDup (List.map payKey
                        (fold_left (fun file payment => snd (Payments.POST payment file))
                                   payments file)) /\
               forall p, In p (fold_left (fun file payment => snd (Payments.POST payment file))
                                         payments file) ->
                         Payments.rp_manualOverride p = Some true /\ Payments.rp_id p <> "").
    { clear. induction payments as [|payment payments IH]; intros file Hfile; simpl;
        [exact Hfile|].
      apply IH. destruct Hfile as [Hnd Hall]. split.
      - apply (replaceOrPush_NoDup payKey eqPair eqPair_spec (Payments.stamped payment) file Hnd).
      - intros p Hin. apply replaceOrPush_In in Hin. destruct Hin as [->|Hin]; [|auto].
        split; [reflexivity|]. simpl.
        destruct (Js.falsy (Payments.rp_id payment)) eqn:Hf.
        + destruct (Payments.rp_tenantId payment); discriminate.
        + apply String.eqb_neq, Hf. }
    apply H. split; [apply NoDup_nil; exact I|intros p []].
Qed.

Lemma rent_payments_keyed_witness :
  let payment := {| Payments.rp_id := ""; Payments.rp_tenantId := "T";
                    Payments.rp_month := "2024-01"; Payments.rp_status := Payments.paid;
                    Payments.rp_amount := Some 1000%float; Payments.rp_date := None;
                    Payments.rp_transactionId := None;
                    Payments.rp_transactionDesc := None;
                    Payments.rp_manualOverride := None |} in
  exists listed,
    Payments.GET (Some "2024-01") (snd (Payments.POST payment [])) = Json listed /\
    In (Payments.stamped payment) listed.
Proof.
  intros payment.
  destruct (proj1 rent_payments_keyed payment []) as (_ & _ & _ & _ & _ & _ & H & _).
  apply H. discriminate.
Defined.

(** ** Reading a CSV line *)

Section CsvLines.

Lemma string_app_cons (x : ascii) (a b : string) :
  (String x a ++ b = String x (a ++ b))%string.
Proof. reflexivity. Qed.

Lemma string_app_assoc (a b c : string) : ((a ++ b) ++ c = a ++ (b ++ c))%string.
Proof.
  induction a as [|x a IH]; [reflexivity|]. rewrite !string_app_cons, IH. reflexivity.
Qed.

Lemma string_app_nil_r (a : string) : (a ++ "" = a)%string.
Proof.
  induction a as [|x a IH]; [reflexivity|]. rewrite string_app_cons, IH. reflexivity.
Qed.

Lemma parseLoop_unquoted c rest inQuotes current result :
  Ascii.eqb c Js.quote = false ->
  CsvUpload.parseLoop (String c rest) inQuotes current result =
  if Ascii.eqb c "," && negb inQuotes
  then CsvUpload.parseLoop rest inQuotes EmptyString (result ++ [current])
  else CsvUpload.parseLoop rest inQuotes (current ++ String c EmptyString) result.
Proof. intros H. simpl. rewrite H. reflexivity. Qed.

(** A bare run of characters is added to the current cell. *)
Lemma parseLoop_plain f : forall rest current result,
  plainField f ->
  CsvUpload.parseLoop (f ++ rest) false current result =
  CsvUpload.parseLoop rest false (current ++ f) result.
Proof.
  induction f as [|c f IH]; intros rest current result Hf.
  - simpl. rewrite string_app_nil_r. reflexivity.
  - assert (Hc : plainChar c = true) by (apply Hf; simpl; auto).
    unfold plainChar in Hc. apply andb_true_iff in Hc. destruct Hc as [Hcomma Hquote].
    apply negb_true_iff in Hcomma, Hquote.
    change (String c f ++ rest)%string with (String c (f ++ rest)).
    rewrite parseLoop_unquoted by exact Hquote. rewrite Hcomma. simpl andb. cbv iota.
    rewrite IH by (intros x Hx; apply Hf; simpl; auto).
    rewrite string_app_assoc. reflexivity.
Qed.

(** Inside quotes every character but a quote is added to the current
    cell, commas included. *)
Lemma parseLoop_inside s : forall rest current result,
  quoteFree s ->
  CsvUpload.parseLoop (s ++ rest) true current result =
  CsvUpload.parseLoop rest true (current ++ s) result.
Proof.
  induction s as [|c s IH]; intros rest current result Hs.
  - simpl. rewrite string_app_nil_r. reflexivity.
  - assert (Hc : Ascii.eqb c Js.quote = false) by (apply Hs; simpl; auto).
    change (String c s ++ rest)%string with (String c (s ++ rest)).
    rewrite parseLoop_unquoted by exact Hc. rewrite andb_false_r.
    rewrite IH by (intros x Hx; apply Hs; simpl; auto).
    rewrite string_app_assoc. reflexivity.
Qed.

Lemma parseLoop_open rest current result :
  CsvUpload.parseLoop (String Js.quote rest) false current result =
  CsvUpload.parseLoop rest true current result.
Proof. simpl. destruct rest; reflexivity. Qed.

Lemma parseLoop_close rest current result :
  cellEnd rest ->
  CsvUpload.parseLoop (String Js.quote rest) true current result =
  CsvUpload.parseLoop rest false current result.
Proof. intros [->|[rest' ->]]; reflexivity. Qed.

Lemma parseLoop_cell c rest current result :
  wellFormedCell c -> cellEnd rest ->
  CsvUpload.parseLoop (encodeCell c ++ rest) false current result =
  CsvUpload.parseLoop rest false (current ++ content c) result.
Proof.
  unfold wellFormedCell, encodeCell. destruct (quoted c); intros Hc Hrest.
  - change ((String Js.quote (content c) ++ String Js.quote "") ++ rest)%string
      with (String Js.quote ((content c ++ String Js.quote "") ++ rest)).
    rewrite parseLoop_open, string_app_assoc, parseLoop_inside by exact Hc.
    simpl. apply parseLoop_close, Hrest.
  - apply parseLoop_plain, Hc.
Qed.

Lemma parseLoop_cells cells : forall c result,
  wellFormedCell c -> Forall wellFormedCell cells ->
  CsvUpload.parseLoop (String.concat "," (List.map encodeCell (c :: cells))) false "" result =
  (result ++ List.map content (c :: cells))%list.
Proof.
  induction cells as [|d cells IH]; intros c result Hc Hcells.
  - simpl. rewrite <- (string_app_nil_r (encodeCell c)).
    rewrite parseLoop_cell by (auto; left; reflexivity). reflexivity.
  - change (String.concat "," (List.map encodeCell (c :: d :: cells)))
      with (encodeCell c ++ String "," (String.concat "," (List.map encodeCell (d :: cells))))%string.
    rewrite parseLoop_cell by (auto; right; eauto).
    apply Forall_cons in Hcells. destruct Hcells as [Hd Hcells].
    simpl CsvUpload.parseLoop at 1.
    change (CsvUpload.parseLoop (String.concat "," (List.map encodeCell (d :: cells))) false ""
              (result ++ [content c])%list = (result ++ List.map content (c :: d :: cells))%list).
    rewrite IH by assumption. simpl. rewrite <- app_assoc. reflexivity.
Qed.

Lemma In_string_app c a b :
  In c (list_ascii_of_string (a ++ b)) <->
  In c (list_ascii_of_string a) \/ In c (list_ascii_of_string b).
Proof.
  induction a as [|x a IH]; [simpl; tauto|].
  rewrite string_app_cons. simpl. rewrite IH. tauto.
Qed.

(** A part of a string without double quote has no double quote. *)
Lemma quoteFree_substring sub s : isSubstring sub s -> quoteFree s -> quoteFree sub.
Proof.
  intros (pre & post & ->) H c Hc. apply H.
  apply In_string_app. right. apply In_string_app. left. exact Hc.
Qed.

Lemma trimStart_suffix s : exists pre, s = (pre ++ Js.trimStart s)%string.
Proof.
  induction s as [|c s [pre IH]]; simpl; [exists ""; reflexivity|].
  destruct (Js.isWhiteSpace c); [|exists ""; reflexivity].
  exists (String c pre). rewrite string_app_cons, <- IH. reflexivity.
Qed.

Lemma trimEnd_prefix s : exists post, s = (Js.trimEnd s ++ post)%string.
Proof.
  induction s as [|c s [post IH]]; simpl; [exists ""; reflexivity|].
  destruct (Js.isWhiteSpace c && String.eqb (Js.trimEnd s) "").
  - exists (String c s). reflexivity.
  - exists post. rewrite string_app_cons, <- IH. reflexivity.
Qed.

(** On ASCII text [trim] returns a part of its argument. *)
Lemma trim_isSubstring s : isSubstring (Js.trim s) s.
Proof.
  destruct (trimStart_suffix s) as [pre Hpre].
  destruct (trimEnd_prefix (Js.trimStart s)) as [post Hpost].
  exists pre, post. unfold Js.trim. rewrite <- Hpost. exact Hpre.
Qed.

Lemma dropLastQuote_quoteFree s : quoteFree s -> Js.dropLastQuote s = s.
Proof.
  induction s as [|c s IH]; intros H; [reflexivity|].
  assert (Hc : Ascii.eqb c Js.quote = false) by (apply H; simpl; auto).
  assert (Hs : quoteFree s) by (intros x Hx; apply H; simpl; auto).
  simpl. destruct s as [|d s]; [rewrite Hc; reflexivity|].
  rewrite (IH Hs). reflexivity.
Qed.

Lemma stripQuotes_quoteFree s : quoteFree s -> Js.stripQuotes s = s.
Proof.
  intros H. destruct s as [|c s]; [reflexivity|].
  unfold Js.stripQuotes. rewrite (H c) by (simpl; auto).
  apply dropLastQuote_quoteFree, H.
Qed.

Lemma wellFormedCell_quoteFree c : wellFormedCell c -> quoteFree (content c).
Proof.
  unfold wellFormedCell. destruct (quoted c); [auto|].
  intros H x Hx. specialize (H x Hx). unfold plainChar in H.
  apply andb_true_iff in H. destruct H as [_ H]. apply negb_true_iff, H.
Qed.

(** The loop always closes the current cell: it adds at least one cell. *)
Lemma parseLoop_length n : forall chars inQuotes current result,
  String.length chars <= n ->
  S (length result) <= length (CsvUpload.parseLoop chars inQuotes current result).
Proof.
  induction n as [|n IH]; intros chars inQuotes current result Hn.
  - destruct chars; [|simpl in Hn; lia]. simpl. rewrite length_app. simpl. lia.
  - destruct chars as [|c rest]; [simpl; rewrite length_app; simpl; lia|].
    simpl in Hn. simpl.
    destruct (Ascii.eqb c Js.quote).
    + destruct rest as [|d rest']; [apply IH; simpl; lia|].
      destruct (inQuotes && Ascii.eqb d Js.quote); apply IH; simpl in *; lia.
    + destruct (Ascii.eqb c "," && negb inQuotes).
      * etrans; [|apply IH; lia]. rewrite length_app. simpl. lia.
      * apply IH. lia.
Qed.

End CsvLines.

(** X24. Reading a CSV line undoes writing it, whatever [trim] of the
    string library removes, given that it returns a part of its argument.
    For a non-empty list of cells, each written bare (when it holds neither
    comma nor double quote) or between double quotes (when it holds no double
    quote; commas are allowed), the line made of the written cells separated
    by commas is read back as the contents of the cells, trimmed. Every line,
    the empty one included, yields at least one cell. *)
Theorem parseCSVLine_reads_cells (trim : string -> string) :
  (forall s, isSubstring (trim s) s) ->
  (forall c cells,
      wellFormedCell c -> Forall wellFormedCell cells ->
      CsvUpload.parseCSVLine trim (String.concat "," (List.map encodeCell (c :: cells))) =
      List.map (fun cell => trim (content cell)) (c :: cells)) /\
  (forall line, 1 <= length (CsvUpload.parseCSVLine trim line)).
Proof.
  intros Htrim. split.
  - intros c cells Hc Hcells. unfold CsvUpload.parseCSVLine.
    rewrite (parseLoop_cells cells c [] Hc Hcells). rewrite app_nil_l, List.map_map.
    apply map_ext_in. intros cell Hin.
    apply stripQuotes_quoteFree, (quoteFree_substring _ _ (Htrim _)),
      wellFormedCell_quoteFree.
    destruct Hin as [<-|Hin]; [exact Hc|].
    rewrite List.Forall_forall in Hcells. apply Hcells, Hin.
  - intros line. unfold CsvUpload.parseCSVLine. rewrite length_map.
    apply (parseLoop_length (String.length line) line false "" []). lia.
Qed.

Lemma parseCSVLine_reads_cells_witness :
  CsvUpload.parseCSVLine Js.trim
    (String.concat ","
       (List.map encodeCell
          [{| quoted := false; content := "01/05/2024" |};
           {| quoted := true; content := "ZELLE FROM SMITH, JOHN" |};
           {| quoted := false; content := " -1500.00" |}])) =
  ["01/05/2024"; "ZELLE FROM SMITH, JOHN"; "-1500.00"].
Proof.
  apply (proj1 (parseCSVLine_reads_cells Js.trim trim_isSubstring)
               {| quoted := false; content := "01/05/2024" |}
               [{| quoted := true; content := "ZELLE FROM SMITH, JOHN" |};
                {| quoted := false; content := " -1500.00" |}]).
  - intros x Hx. simpl in Hx.
    repeat (destruct Hx as [<-|Hx]; [reflexivity|]). destruct Hx.
  - constructor; [|constructor; [|constructor]].
    + intros x Hx. simpl in Hx.
      repeat (destruct Hx as [<-|Hx]; [reflexivity|]). destruct Hx.
    + intros x Hx. simpl in Hx.
      repeat (destruct Hx as [<-|Hx]; [reflexivity|]). destruct Hx.
Defined.

(** ** Finding a column of a CSV header *)

Section Columns.

Lemma headerLoop_None test headers : forall i,
  CsvUpload.headerLoop test headers i = None <->
  forall h, In h headers -> test (normHeader h) = false.
Proof.
  induction headers as [|h rest IH]; intros i; simpl.
  - split; [intros _ ? []|reflexivity].
  - fold (normHeader h). destruct (test (normHeader h)) eqn:Hh.
    + split; [discriminate|]. intros H. rewrite (H h) in Hh by auto. discriminate.
    + rewrite IH. split.
      * intros H x [<-|Hx]; auto.
      * intros H x Hx. apply H. auto.
Qed.

(** The inner loop returns the first index, counted from [i], whose header
    passes the test. *)
Lemma headerLoop_Some test headers : forall i j,
  CsvUpload.headerLoop test headers i = Some j ->
  exists k h, j = i + k /\ nth_error headers k = Some h /\ test (normHeader h) = true /\
              forall k' h', k' < k -> nth_error headers k' = Some h' ->
                            test (normHeader h') = false.
Proof.
  induction headers as [|h rest IH]; intros i j; simpl; [discriminate|].
  fold (normHeader h). destruct (test (normHeader h)) eqn:Hh.
  - intros H. injection H as <-. exists 0, h. split; [lia|]. split; [reflexivity|].
    split; [exact Hh|]. intros k' h' Hk. lia.
  - intros H. destruct (IH _ _ H) as (k & h' & -> & Hnth & Htest & Hfirst).
    exists (S k), h'. split; [lia|]. split; [exact Hnth|]. split; [exact Htest|].
    intros k' h'' Hk Hn. destruct k' as [|k']; simpl in Hn.
    + injection Hn as <-. exact Hh.
    + apply (Hfirst k' h''); [lia|exact Hn].
Qed.

Lemma nameLoop_None test headers names :
  CsvUpload.nameLoop test headers names = None <->
  forall n h, In n names -> In h headers -> test (normHeader h) n = false.
Proof.
  induction names as [|n rest IH]; simpl.
  - split; [intros _ ? ? []|reflexivity].
  - destruct (CsvUpload.headerLoop _ headers 0) as [i|] eqn:Hloop.
    + split; [discriminate|]. intros H. exfalso.
      destruct (headerLoop_Some _ _ _ _ Hloop) as (k & h & _ & Hnth & Htest & _).
      rewrite (H n h) in Htest; [discriminate|auto|]. eapply nth_error_In, Hnth.
    + rewrite IH. rewrite headerLoop_None in Hloop. split.
      * intros H x h [<-|Hx] Hh; auto.
      * intros H x h Hx Hh. apply H; auto.
Qed.

Lemma nameLoop_Some test headers names i :
  CsvUpload.nameLoop test headers names = Some i ->
  exists n h, In n names /\ nth_error headers i = Some h /\ test (normHeader h) n = true.
Proof.
  induction names as [|n rest IH]; simpl; [discriminate|].
  destruct (CsvUpload.headerLoop _ headers 0) as [j|] eqn:Hloop.
  - intros H. injection H as <-.
    destruct (headerLoop_Some _ _ _ _ Hloop) as (k & h & -> & Hnth & Htest & _).
    exists n, h. auto.
  - intros H. destruct (IH H) as (n' & h & Hn & Hnth & Htest). exists n', h. auto.
Qed.

Lemma includes_self s : Js.includes s s = true.
Proof.
  apply includes_spec. exists "", "". simpl. rewrite string_app_nil_r. reflexivity.
Qed.

End Columns.

(** X25. The column search. It answers [-1] exactly when no header,
    lower-cased and trimmed, contains any of the names; otherwise it answers
    the index of a header that contains one of the names. When some header
    equals one of the names, the answer is the index of a header that equals
    one of the names, even if an earlier header merely contains a name; and
    when some header equals the first name, the answer is the first index
    whose header equals it. *)
Theorem findColumnIndex_spec headers names :
  let r := CsvUpload.findColumnIndex headers names in
  (r = (-1)%Z <->
   forall n h, In n names -> In h headers -> Js.includes (normHeader h) n = false) /\
  (r <> (-1)%Z ->
   exists i n h, r = Z.of_nat i /\ In n names /\ nth_error headers i = Some h /\
                 Js.includes (normHeader h) n = true) /\
  (forall n h, In n names -> In h headers -> normHeader h = n ->
               exists i h', r = Z.of_nat i /\ nth_error headers i = Some h' /\
                            In (normHeader h') names) /\
  (forall n rest h, names = n :: rest -> In h headers -> normHeader h = n ->
                    exists i h', r = Z.of_nat i /\ nth_error headers i = Some h' /\
                                 normHeader h' = n /\
                                 forall k hk, k < i -> nth_error headers k = Some hk ->
                                              normHeader hk <> n).
Proof.
  intros r. subst r. unfold CsvUpload.findColumnIndex.
  destruct (CsvUpload.nameLoop String.eqb headers names) as [i|] eqn:Hexact.
  - destruct (nameLoop_Some _ _ _ _ Hexact) as (n & h & Hn & Hnth & Heq).
    apply String.eqb_eq in Heq. split; [|split; [|split]].
    + split; [lia|]. intros H. exfalso.
      specialize (H n h Hn (nth_error_In _ _ Hnth)).
      rewrite Heq, includes_self in H. discriminate.
    + intros _. exists i, n, h. repeat split; auto. rewrite Heq. apply includes_self.
    + intros _ _ _ _ _. exists i, h. rewrite Heq. auto.
    + intros n0 rest h0 -> Hh0 Hnorm. simpl in Hexact.
      destruct (CsvUpload.headerLoop _ headers 0) as [j|] eqn:Hloop.
      * injection Hexact as <-.
        destruct (headerLoop_Some _ _ _ _ Hloop) as (k & hk & -> & Hk & Htest & Hfirst).
        apply String.eqb_eq in Htest. exists (0 + k)%nat, hk. simpl.
        split; [reflexivity|]. split; [exact Hk|]. split; [exact Htest|].
        intros k' h' Hlt Hn' Heq'. specialize (Hfirst k' h' Hlt Hn').
        apply String.eqb_neq in Hfirst. contradiction.
      * exfalso. rewrite headerLoop_None in Hloop. specialize (Hloop h0 Hh0).
        apply String.eqb_neq in Hloop. contradiction.
  - rewrite nameLoop_None in Hexact.
    assert (Hno : forall n h, In n names -> In h headers -> normHeader h <> n).
    { intros n h Hn Hh. apply String.eqb_neq, Hexact; assumption. }
    destruct (CsvUpload.nameLoop Js.includes headers names) as [i|] eqn:Hpartial.
    + destruct (nameLoop_Some _ _ _ _ Hpartial) as (n & h & Hn & Hnth & Hinc).
      split; [|split; [|split]].
      * split; [lia|]. intros H. rewrite (H n h) in Hinc; [discriminate|exact Hn|].
        eapply nth_error_In, Hnth.
      * intros _. exists i, n, h. auto.
      * intros n0 h0 Hn0 Hh0 Heq. exfalso. apply (Hno n0 h0); assumption.
      * intros n0 rest h0 -> Hh0 Heq. exfalso. apply (Hno n0 h0); simpl; auto.
    + rewrite nameLoop_None in Hpartial. split; [|split; [|split]].
      * split; [intros _; exact Hpartial|reflexivity].
      * intros H. contradiction.
      * intros n0 h0 Hn0 Hh0 Heq. exfalso. apply (Hno n0 h0); assumption.
      * intros n0 rest h0 -> Hh0 Heq. exfalso. apply (Hno n0 h0); simpl; auto.
Qed.

Lemma findColumnIndex_spec_witness :
  exists i h',
    CsvUpload.findColumnIndex ["Details"; "Posting Date"; "Description"; "Amount"]
                              CsvUpload.descColNames = Z.of_nat i /\
    nth_error ["Details"; "Posting Date"; "Description"; "Amount"] i = Some h' /\
    normHeader h' = "description" /\
    forall k hk, k < i ->
                 nth_error ["Details"; "Posting Date"; "Description"; "Amount"] k = Some hk ->
                 normHeader hk <> "description".
Proof.
  apply (proj2 (proj2 (proj2 (findColumnIndex_spec
                                ["Details"; "Posting Date"; "Description"; "Amount"]
                                CsvUpload.descColNames)))
               "description" (tl CsvUpload.descColNames) "Description").
  - reflexivity.
  - simpl. auto.
  - reflexivity.
Defined.

(** ** Instances of the cascade, re-evaluation and tenant-id properties *)

Lemma tenant_delete_cascade_witness :
  let st' := snd (TenantsRoute.DELETE "A" (snd (MatchRoute.POST smithStore))) in
  getTenantTransactions st' = [] /\
  tt_tenantId (mkLink "B" "t1" false) <> "A".
Proof.
  intros st'.
  destruct (tenant_delete_cascade "A" (snd (MatchRoute.POST smithStore)))
    as (_ & _ & _ & _ & Hrun).
  split; [reflexivity|]. apply Hrun. left. reflexivity.
Defined.


Lemma tenant_ids_distinct_witness :
  tenant_id (searchTenant "T" 1000 50 ["SMITH"]) <> "".
Proof.
  apply (proj2 (tenant_ids_distinct
                  [Ops.SaveTenant (searchTenant "T" 1000 50 ["SMITH"]) 0;
                   Ops.SaveTransactions [bankLine "t1" (-1000) "SMITH"]])).
  left. reflexivity.
Defined.
